(** * isov: five-channel voltage-to-frequency driver (src/isov.c)

    A shallow embedding of the interrupt handler [vcf_isr], the file
    operations [isov_misc_read] and [isov_misc_write] and the part of
    [isov_init] that fills the interrupt table, followed by the properties
    of the edge handler and of the text snapshot.

    C integers are [Z] with the wrap-around of their type written out.
    The module's globals and function statics form the record [machine];
    code runs in a state monad that also reports a fault (a division by
    zero, an access outside an array). *)

From Stdlib Require Import ZArith Lia Ascii String List.
From stdpp Require Import base list.
Import ListNotations.
Local Open Scope Z_scope.

(** ** C integer types *)

Definition wrap_unsigned (w x : Z) : Z := x mod 2 ^ w.
Definition wrap_signed (w x : Z) : Z := (x + 2 ^ (w - 1)) mod 2 ^ w - 2 ^ (w - 1).

Definition to_u32 : Z -> Z := wrap_unsigned 32.   (* u32, unsigned int *)
Definition to_int : Z -> Z := wrap_signed 32.     (* int *)
Definition to_u64 : Z -> Z := wrap_unsigned 64.   (* unsigned long long *)
Definition to_s64 : Z -> Z := wrap_signed 64.     (* long long, loff_t *)

(** [size_t] is [unsigned int] on a 32-bit kernel and [unsigned long] (64
    bits) on a 64-bit one; [loff_t] is [long long] on both. *)
Inductive data_model : Set := ILP32 | LP64.

Definition size_bits (dm : data_model) : Z :=
  match dm with ILP32 => 32 | LP64 => 64 end.

Definition to_size_t (dm : data_model) : Z -> Z := wrap_unsigned (size_bits dm).
Definition to_ssize_t (dm : data_model) : Z -> Z := wrap_signed (size_bits dm).

(** The value of [a - b] for [a : size_t] and [b : loff_t] after the usual
    arithmetic conversions: computed in [long long] where that type holds
    every [size_t] (ILP32), in [unsigned long long] otherwise (LP64). *)
Definition sub_size_loff (dm : data_model) (a b : Z) : Z :=
  match dm with
  | ILP32 => to_s64 (a - b)
  | LP64 => to_u64 (a - b)
  end.

(** Error numbers of <linux/errno.h>. *)
Definition EFAULT : Z := 14.
Definition ENODEV : Z := 19.
Definition EINVAL : Z := 22.
Definition ENODATA : Z := 61.

Inductive irqreturn_t : Set := IRQ_NONE | IRQ_HANDLED | IRQ_WAKE_THREAD.

(** ** Module state *)

Record machine : Type := Machine {
  vcf_irqs : list Z;            (* static int vcf_irqs[5] *)
  last_pulse_time : list Z;     (* u32 last_pulse_time[5] *)
  calib_coeficients : list Z;   (* static int calib_coeficients[5] *)
  voltages : list Z;            (* static int voltages[5] *)
  time_diff : Z;                (* static u32 time_diff, local to vcf_isr *)
  txt_buffer : list ascii;      (* static char txt_buffer[256], local to isov_misc_read *)
  timer_reads : nat             (* how often the timer register has been read *)
}.

Definition NUL : ascii := Ascii.zero.

Definition init_machine : machine :=
  {| vcf_irqs := [-1; -1; -1; -1; -1];
     last_pulse_time := [0; 0; 0; 0; 0];
     calib_coeficients := [7692308; 7692308; 7692308; 7692308; 7692308];
     voltages := [0; 0; 0; 0; 0];
     time_diff := 0;
     txt_buffer := replicate 256 NUL;
     timer_reads := 0 |}.

Definition set_vcf_irqs (l : list Z) (s : machine) : machine :=
  Machine l (last_pulse_time s) (calib_coeficients s) (voltages s)
          (time_diff s) (txt_buffer s) (timer_reads s).
Definition set_last_pulse_time (l : list Z) (s : machine) : machine :=
  Machine (vcf_irqs s) l (calib_coeficients s) (voltages s)
          (time_diff s) (txt_buffer s) (timer_reads s).
Definition set_voltages (l : list Z) (s : machine) : machine :=
  Machine (vcf_irqs s) (last_pulse_time s) (calib_coeficients s) l
          (time_diff s) (txt_buffer s) (timer_reads s).
Definition set_time_diff (v : Z) (s : machine) : machine :=
  Machine (vcf_irqs s) (last_pulse_time s) (calib_coeficients s) (voltages s)
          v (txt_buffer s) (timer_reads s).
Definition set_txt_buffer (b : list ascii) (s : machine) : machine :=
  Machine (vcf_irqs s) (last_pulse_time s) (calib_coeficients s) (voltages s)
          (time_diff s) b (timer_reads s).
Definition set_timer_reads (n : nat) (s : machine) : machine :=
  Machine (vcf_irqs s) (last_pulse_time s) (calib_coeficients s) (voltages s)
          (time_diff s) (txt_buffer s) n.

(** ** The monad of module code

    A computation maps the module state to the state it leaves and either
    its value or the fault that stopped it.  The state of a stopped
    computation holds the stores made before the fault. *)

Inductive fault : Set := DivByZero | OutOfBounds.

Inductive res (A : Type) : Type :=
| Done (a : A)
| Trap (f : fault).
Arguments Done {A} a.
Arguments Trap {A} f.

Definition M (A : Type) : Type := machine -> machine * res A.

Definition ret {A} (a : A) : M A := fun s => (s, Done a).

Definition bind {A B} (m : M A) (k : A -> M B) : M B :=
  fun s =>
    match m s with
    | (s', Done a) => k a s'
    | (s', Trap f) => (s', Trap f)
    end.

Definition raise {A} (f : fault) : M A := fun s => (s, Trap f).

Notation "'let*' x ':=' m 'in' k" := (bind m (fun x => k))
  (at level 10, x name, m at level 100, k at level 200).
Notation "m ';;;' k" := (bind m (fun _ => k))
  (at level 100, k at level 200, right associativity).

Definition get {A} (field : machine -> A) : M A := fun s => (s, Done (field s)).
Definition modify (f : machine -> machine) : M unit := fun s => (f s, Done tt).

(** Reading and writing element [i] of one of the arrays. *)
Definition load (arr : machine -> list Z) (i : nat) : M Z :=
  fun s =>
    match arr s !! i with
    | Some v => (s, Done v)
    | None => (s, Trap OutOfBounds)
    end.

Definition store (arr : machine -> list Z) (upd : list Z -> machine -> machine)
    (i : nat) (v : Z) : M unit :=
  fun s =>
    if decide (i < length (arr s))%nat
    then (upd (<[i := v]> (arr s)) s, Done tt)
    else (s, Trap OutOfBounds).

(** [ioread32(timer)]: the free-running 1 MHz counter.  [timer k] is the
    value the register shows at the [k]-th read since the module was loaded. *)
Definition ioread32 (timer : nat -> Z) : M Z :=
  fun s => (set_timer_reads (S (timer_reads s)) s, Done (to_u32 (timer (timer_reads s)))).

(** Unsigned division of C: dividing by zero is a fault. *)
Definition udiv (a b : Z) : M Z :=
  if b =? 0 then raise DivByZero else ret (a / b).

(** [for (int i = 0; i < ARRAY_SIZE(...); i++) body(i)] over the listed
    indices. *)
Fixpoint for_each (idx : list nat) (body : nat -> M unit) : M unit :=
  match idx with
  | [] => ret tt
  | i :: rest => body i ;;; for_each rest body
  end.

Definition ARRAY_SIZE_vcf_irqs : nat := 5.

(** ** Interrupt handler *)

(** The body of the loop of [vcf_isr] for channel [i]. *)
Definition vcf_isr_channel (timer : nat -> Z) (irq : Z) (i : nat) : M unit :=
  let* irq_i := load vcf_irqs i in
  if irq =? irq_i then
    (* time_diff = ioread32(timer) - last_pulse_time[i]; *)
    let* now := ioread32 timer in
    let* last := load last_pulse_time i in
    modify (set_time_diff (to_u32 (now - last))) ;;;
    (* last_pulse_time[i] = ioread32(timer); *)
    let* now' := ioread32 timer in
    store last_pulse_time set_last_pulse_time i now' ;;;
    (* if (time_diff < 1000000) voltages[i] = calib_coeficients[i] / time_diff; *)
    let* td := get time_diff in
    if td <? 1000000 then
      let* c := load calib_coeficients i in
      let* q := udiv (to_u32 c) td in
      store voltages set_voltages i (to_int q)
    else ret tt
  else ret tt.

Definition vcf_isr (timer : nat -> Z) (irq : Z) : M irqreturn_t :=
  for_each (seq 0 ARRAY_SIZE_vcf_irqs) (vcf_isr_channel timer irq) ;;;
  ret IRQ_HANDLED.

(** The interrupt number of channel [i]. *)
Definition irq_of (s : machine) (i : nat) : Z := default (-1) (vcf_irqs s !! i).

(** A falling edge on channel [i] while the counter shows [t]: the handler
    runs with the interrupt of channel [i], and both of its reads of the
    counter return [t]. *)
Definition on_edge (i : nat) (t : Z) (s : machine) : machine * res irqreturn_t :=
  vcf_isr (fun _ => t) (irq_of s i) s.

(** Channel [i] exists and no other channel shares its interrupt. *)
Definition dedicated (s : machine) (i : nat) : Prop :=
  (i < 5)%nat /\ forall j : nat, j <> i -> vcf_irqs s !! j <> Some (irq_of s i).

(** The period the handler computes for an edge at [t] on channel [i]. *)
Definition period (s : machine) (i : nat) (t : Z) : Z :=
  to_u32 (to_u32 t - default 0 (last_pulse_time s !! i)).

(** ** Module initialisation: the interrupt table

    [gpio_rc], [irq0] and [request_rc] are the results of
    [gpio_request_array], [gpio_to_irq] of the first signal and
    [request_irq]. *)
Definition isov_init (gpio_rc irq0 request_rc : Z) : M Z :=
  if negb (gpio_rc =? 0) then ret (- ENODEV)
  else
    store vcf_irqs set_vcf_irqs 0 irq0 ;;;
    if irq0 <? 0 then ret (- ENODEV)
    else if negb (request_rc =? 0) then ret (- ENODEV)
    else ret 0.

(** ** Write *)

Definition isov_misc_write (buf : list ascii) (count offset : Z) : M Z :=
  ret (- EINVAL).

(** ** Formatting

    [snprintf] with the conversions the module uses: [%d] prints an [int]
    in decimal, every other character is copied. *)

Definition digit (d : Z) : ascii := ascii_of_nat (48 + Z.to_nat d).

(** The decimal digits of [n >= 0], most significant first, in front of
    [acc]; [fuel] bounds the number of digits. *)
Fixpoint put_dec (fuel : nat) (n : Z) (acc : list ascii) : list ascii :=
  match fuel with
  | O => acc
  | S fuel' =>
      let acc' := digit (n mod 10) :: acc in
      if n / 10 =? 0 then acc' else put_dec fuel' (n / 10) acc'
  end.

(** [%d] of an [int]: at most ten digits, a minus sign if negative. *)
Definition fmt_d (v : Z) : list ascii :=
  if v <? 0 then "-"%char :: put_dec 10 (- v) [] else put_dec 10 v [].

Fixpoint vformat (fmt : list ascii) (args : list Z) : list ascii :=
  match fmt with
  | [] => []
  | c :: rest =>
      if (c =? "%")%char then
        match rest with
        | d :: rest' =>
            if (d =? "d")%char then
              match args with
              | a :: args' => fmt_d (to_int a) ++ vformat rest' args'
              | [] => vformat rest' []
              end
            else c :: vformat rest args
        | [] => [c]
        end
      else c :: vformat rest args
  end.

(** [snprintf(buf, size, fmt, args)]: stores at most [size - 1] characters
    and a NUL at the start of [buf], and returns the length the whole text
    has. *)
Definition snprintf (buf : list ascii) (size : nat) (fmt : list ascii) (args : list Z)
    : list ascii * Z :=
  let text := vformat fmt args in
  let stored := take (size - 1) text ++ [NUL] in
  (match size with
   | O => buf
   | S _ => stored ++ drop (length stored) buf
   end,
   Z.of_nat (length text)).

Definition newline : ascii := ascii_of_nat 10.

(** "V1=%d V2=%d V3=%d V4=%d V5=%d \n" *)
Definition voltages_fmt : list ascii :=
  list_ascii_of_string "V1=%d V2=%d V3=%d V4=%d V5=%d " ++ [newline].

(** ** Read *)

(** [copy_to_user(buf, src, n)] where [writable] bytes can be stored at
    [buf]: the number of bytes not copied, and the bytes stored. *)
Definition copy_to_user (writable : Z) (src : list ascii) (n : Z) : Z * list ascii :=
  let k := Z.min n (Z.max 0 writable) in
  (n - k, take (Z.to_nat k) src).

(** What a call of [read] hands back: the return value and the bytes stored
    in the caller's buffer. *)
Record read_result : Type := ReadResult {
  rr_ret : Z;
  rr_user : list ascii
}.

(** The branch of [isov_misc_read] that fills the text buffer:
    [txt_len = snprintf(txt_buffer, 256, ...); txt_len++;]. *)
Definition render_voltages (dm : data_model) : M Z :=
  let* v0 := load voltages 0 in
  let* v1 := load voltages 1 in
  let* v2 := load voltages 2 in
  let* v3 := load voltages 3 in
  let* v4 := load voltages 4 in
  let* buf := get txt_buffer in
  let r := snprintf buf 256 voltages_fmt [v0; v1; v2; v3; v4] in
  modify (set_txt_buffer (fst r)) ;;;
  ret (to_size_t dm (to_size_t dm (snd r) + 1)).

(** [len = (txt_len - *offset > count) ? count : txt_len - *offset;] with
    the result stored in a [size_t]. *)
Definition transfer_length (dm : data_model) (txt_len offset count : Z) : Z :=
  let d := sub_size_loff dm txt_len offset in
  to_size_t dm (if d >? count then count else d).

(** The rest of [isov_misc_read], from the computation of [len] on. *)
Definition hand_over (dm : data_model) (writable count offset txt_len : Z) : M read_result :=
  let len := transfer_length dm txt_len offset count in
  if len <=? 0 then
    (* printk(KERN_ERR ...); return -ENODATA; *)
    ret (ReadResult (- ENODATA) [])
  else
    (* copy_to_user(buf, txt_buffer + *offset, len + 1) *)
    let n := to_size_t dm (len + 1) in
    let* buf := get txt_buffer in
    if (offset <? 0) || (Z.of_nat (length buf) <? offset + n) then raise OutOfBounds
    else
      let c := copy_to_user writable (drop (Z.to_nat offset) buf) n in
      if negb (fst c =? 0) then ret (ReadResult (- EFAULT) (snd c))
      else ret (ReadResult (to_ssize_t dm len) (snd c)).

(** [isov_misc_read(file, buf, count, offset)]: [writable] is the number of
    bytes that can be stored at [buf], [offset] the value of [*offset],
    which the function reads and never writes.  [txt_len] is a local that
    starts at 0 in every call. *)
Definition isov_misc_read (dm : data_model) (writable count offset : Z) : M read_result :=
  let txt_len := 0 in
  let* txt_len :=
    if sub_size_loff dm txt_len offset <=? 0 then render_voltages dm
    else ret txt_len in
  hand_over dm writable count offset txt_len.

(** The bytes a call returns to its caller: the first [rr_ret] bytes of the
    caller's buffer. *)
Definition rr_bytes (r : read_result) : list ascii :=
  take (Z.to_nat (rr_ret r)) (rr_user r).

(** ** States the properties are stated over *)

Definition int_range (v : Z) : Prop := - 2 ^ 31 <= v < 2 ^ 31.

(** The arrays have their declared sizes, the voltages are [int]s and the
    calibration coefficients are [int]s that are not negative. *)
Record state_ok (s : machine) : Prop := StateOk {
  ok_irqs : length (vcf_irqs s) = 5%nat;
  ok_last : length (last_pulse_time s) = 5%nat;
  ok_calib_len : length (calib_coeficients s) = 5%nat;
  ok_calib : Forall (fun c => 0 <= c < 2 ^ 31) (calib_coeficients s);
  ok_volt_len : length (voltages s) = 5%nat;
  ok_volt : Forall int_range (voltages s);
  ok_buf : length (txt_buffer s) = 256%nat
}.

(** The states the module passes through while its functions return. *)
Inductive reachable : machine -> Prop :=
| reach_start : reachable init_machine
| reach_init s gpio_rc irq0 request_rc s' r :
    reachable s -> isov_init gpio_rc irq0 request_rc s = (s', Done r) -> reachable s'
| reach_isr s timer irq s' r :
    reachable s -> vcf_isr timer irq s = (s', Done r) -> reachable s'
| reach_read s dm writable count offset s' r :
    reachable s -> isov_misc_read dm writable count offset s = (s', Done r) -> reachable s'
| reach_write s buf count offset s' r :
    reachable s -> isov_misc_write buf count offset s = (s', Done r) -> reachable s'.

(** The state after [isov_init] succeeded with interrupt 17 for channel 0. *)
Definition booted : machine := fst (isov_init 0 17 0 init_machine).

(** ** The snapshot as the specification words it *)

Definition chars (s : string) : list ascii := list_ascii_of_string s.

(** [V1=<int> V2=<int> V3=<int> V4=<int> V5=<int> \n]: the five values in
    decimal, each followed by a space, then a newline. *)
Definition snapshot_text (vs : list Z) : list ascii :=
  match vs with
  | [v1; v2; v3; v4; v5] =>
      chars "V1=" ++ fmt_d v1 ++ chars " " ++
      chars "V2=" ++ fmt_d v2 ++ chars " " ++
      chars "V3=" ++ fmt_d v3 ++ chars " " ++
      chars "V4=" ++ fmt_d v4 ++ chars " " ++
      chars "V5=" ++ fmt_d v5 ++ chars " " ++ [newline]
  | _ => []
  end.

(** The text with its terminating null byte, and its length. *)
Definition snapshot (s : machine) : list ascii := snapshot_text (voltages s) ++ [NUL].
Definition rendered_length (s : machine) : Z := Z.of_nat (length (snapshot s)).

(** The number a decimal text denotes. *)
Definition digit_value (c : ascii) : Z := Z.of_nat (nat_of_ascii c) - 48.
Definition digits_value (l : list ascii) : Z :=
  fold_left (fun acc c => 10 * acc + digit_value c) l 0.
Definition dec_value (l : list ascii) : Z :=
  match l with
  | c :: l' => if (c =? "-")%char then - digits_value l' else digits_value l
  | [] => 0
  end.

(** The state channel [i] is left in once the handler, having read [t1]
    and [t2] from the counter, has stored the period and the time stamp. *)
Definition stamped (s : machine) (i : nat) (t1 t2 last : Z) : machine :=
  Machine (vcf_irqs s) (<[i := to_u32 t2]> (last_pulse_time s)) (calib_coeficients s)
          (voltages s) (to_u32 (to_u32 t1 - last)) (txt_buffer s) (S (S (timer_reads s))).

(** What a run of the handler for interrupt [irq] may change between [s]
    and [s']: the time stamp and the voltage of the channels registered for
    [irq], the period and the count of timer reads. *)
Record isr_frame (irq : Z) (s s' : machine) : Prop := IsrFrame {
  fr_irqs : vcf_irqs s' = vcf_irqs s;
  fr_calib : calib_coeficients s' = calib_coeficients s;
  fr_buf : txt_buffer s' = txt_buffer s;
  fr_last_len : length (last_pulse_time s') = length (last_pulse_time s);
  fr_volt_len : length (voltages s') = length (voltages s);
  fr_volt_range : Forall int_range (voltages s) -> Forall int_range (voltages s');
  fr_others : forall j : nat, vcf_irqs s !! j <> Some irq ->
      last_pulse_time s' !! j = last_pulse_time s !! j /\ voltages s' !! j = voltages s !! j
}.

(** The state a call of [read] that fills the text buffer leaves. *)
Definition rendered (s : machine) : machine :=
  set_txt_buffer (snapshot s ++ drop (length (snapshot s)) (txt_buffer s)) s.

(** [read(offset, count)] in state [s] returns exactly
    [min(count, rendered_length - offset)] bytes, those of the snapshot
    from position [offset] on. *)
Definition returns_chunk (dm : data_model) (writable count offset : Z) (s : machine) : Prop :=
  exists r, snd (isov_misc_read dm writable count offset s) = Done r /\
    rr_ret r = Z.min count (rendered_length s - offset) /\
    rr_bytes r = take (Z.to_nat (Z.min count (rendered_length s - offset)))
                      (drop (Z.to_nat offset) (snapshot s)).

(** [read(offset, count)] in state [s] returns 0 bytes. *)
Definition returns_no_bytes (dm : data_model) (writable count offset : Z) (s : machine) : Prop :=
  exists r, snd (isov_misc_read dm writable count offset s) = Done r /\ rr_ret r = 0.

(** [read(offset, count)] in state [s] reports that no data is available. *)
Definition signals_nodata (dm : data_model) (writable count offset : Z) (s : machine) : Prop :=
  exists r, snd (isov_misc_read dm writable count offset s) = Done r /\ rr_ret r = - ENODATA.

(** A table with an interrupt for each of the five signals, as the loop
    that [isov_init] has commented out would fill it. *)
Definition fully_wired : machine := set_vcf_irqs [17; 27; 22; 5; 26] init_machine.

(** ** What holds of every state the module reaches

    The coefficients are the constants of the source, only the first entry
    of the interrupt table is ever assigned, a voltage is 0 (never written)
    or a quotient of 7692308 by a period below 1000000, and the time stamps
    are [u32]s. *)
Record reach_inv (s : machine) : Prop := ReachInv {
  ri_calib : calib_coeficients s = replicate 5 7692308;
  ri_irqs : exists q, vcf_irqs s = [q; -1; -1; -1; -1];
  ri_last_len : length (last_pulse_time s) = 5%nat;
  ri_last : Forall (fun t => 0 <= t < 2 ^ 32) (last_pulse_time s);
  ri_volt_len : length (voltages s) = 5%nat;
  ri_volt : Forall (fun v => v = 0 \/ 7 <= v <= 7692308) (voltages s);
  ri_buf : length (txt_buffer s) = 256%nat
}.

(** ** Loading and unloading the module

    [isov_init], [isov_exit], [isov_misc_open] and [isov_misc_release] with
    the calls they make into the kernel.  A call is logged with its
    arguments and, where the module looks at it, its result; the results
    are given from outside. *)
Module Lifecycle.

Inductive call : Type :=
| misc_register (rc : Z)
| misc_deregister
| gpio_request_array (rc : Z)
| gpio_free_array
| gpio_to_irq (gpio irq : Z)
| ioremap (addr size ptr : Z)
| iounmap (ptr : Z)
| request_irq (irq : Z) (name : string) (rc : Z)
| free_irq (irq : Z)
| nonseekable_open (rc : Z)
| printk (msg : string).

(** The module's data, the pointer [timer] and the calls made so far. *)
Record module : Type := Module_ {
  mem : machine;
  timer : Z;                  (* volatile unsigned *timer, 0 until mapped *)
  log : list call
}.

(** What the kernel answers during one run of [isov_init]. *)
Record answers : Type := Answers {
  misc_rc : Z;                (* misc_register *)
  gpio_rc : Z;                (* gpio_request_array *)
  irq_rc : Z;                 (* gpio_to_irq *)
  map_ptr : Z;                (* ioremap *)
  request_rc : Z              (* request_irq *)
}.

Definition L (A : Type) : Type := module -> module * res A.

Definition lret {A} (a : A) : L A := fun k => (k, Done a).

Definition lbind {A B} (m : L A) (f : A -> L B) : L B :=
  fun k =>
    match m k with
    | (k', Done a) => f a k'
    | (k', Trap e) => (k', Trap e)
    end.

Notation "'do*' x ':=' m 'in' f" := (lbind m (fun x => f))
  (at level 10, x name, m at level 100, f at level 200).
Notation "m ';;' f" := (lbind m (fun _ => f))
  (at level 100, f at level 200, right associativity).

(** Module code that works on the data alone. *)
Definition lift {A} (m : M A) : L A :=
  fun k => let r := m (mem k) in (Module_ (fst r) (timer k) (log k), snd r).

Definition kcall (c : call) : L unit :=
  fun k => (Module_ (mem k) (timer k) (log k ++ [c]), Done tt).

Definition get_timer : L Z := fun k => (k, Done (timer k)).
Definition set_timer (p : Z) : L unit := fun k => (Module_ (mem k) p (log k), Done tt).

Fixpoint lfor (idx : list nat) (body : nat -> L unit) : L unit :=
  match idx with
  | [] => lret tt
  | i :: rest => body i ;; lfor rest body
  end.

Definition GPIO_VCF1 : Z := 2.
Definition TIMER_PAGE_BASE : Z := 0x3F003000.
Definition TIMER_OFFSET : Z := 4.
Definition ARRAY_SIZE_vcfGPIOSignals : nat := 5.

(** [free_irq(vcf_irqs[i], NULL)] for the listed [i]. *)
Definition free_irqs (idx : list nat) : L unit :=
  lfor idx (fun i => do* irq := lift (load vcf_irqs i) in kcall (free_irq irq)).

Definition isov_init (a : answers) : L Z :=
  kcall (misc_register (misc_rc a)) ;;
  kcall (gpio_request_array (gpio_rc a)) ;;
  if negb (gpio_rc a =? 0) then
    kcall gpio_free_array ;; lret (- ENODEV)
  else
    let i := 0%nat in
    (* vcf_irqs[i] = gpio_to_irq(vcfGPIOSignals[i].gpio); *)
    kcall (gpio_to_irq GPIO_VCF1 (irq_rc a)) ;;
    lift (store vcf_irqs set_vcf_irqs i (irq_rc a)) ;;
    do* irq_i := lift (load vcf_irqs i) in
    if irq_i <? 0 then
      (* for(i=i-1; i>=0; i--) free_irq(vcf_irqs[i], NULL); *)
      free_irqs (rev (seq 0 i)) ;;
      kcall gpio_free_array ;; lret (- ENODEV)
    else
      (* timer = ioremap(TIMER_PAGE_BASE+TIMER_OFFSET, 8); *)
      kcall (ioremap (TIMER_PAGE_BASE + TIMER_OFFSET) 8 (map_ptr a)) ;;
      set_timer (map_ptr a) ;;
      let i := 0%nat in
      do* irq_i := lift (load vcf_irqs i) in
      kcall (request_irq irq_i "isov#vcf1" (request_rc a)) ;;
      if negb (request_rc a =? 0) then
        free_irqs (seq 0 ARRAY_SIZE_vcfGPIOSignals) ;;
        kcall gpio_free_array ;;
        do* t := get_timer in
        kcall (iounmap t) ;;
        lret (- ENODEV)
      else
        kcall (printk "ISOV: GPIO settings ok.") ;;
        lret 0.

Definition isov_exit : L unit :=
  kcall (printk "ISOV: GPIO unregistering.") ;;
  do* t := get_timer in
  (if negb (t =? 0) then kcall (iounmap t) else lret tt) ;;
  free_irqs (seq 0 ARRAY_SIZE_vcf_irqs) ;;
  kcall gpio_free_array ;;
  kcall misc_deregister.

Definition isov_misc_open (rc : Z) : L Z :=
  kcall (nonseekable_open rc) ;; lret rc.

Definition isov_misc_release : L Z := lret 0.

(** The state of the module file before it is loaded. *)
Definition fresh : module := Module_ init_machine 0 [].

(** Telling the calls apart. *)
Definition is_free_irq (c : call) : bool :=
  match c with free_irq _ => true | _ => false end.
Definition is_request_irq (c : call) : bool :=
  match c with request_irq _ _ _ => true | _ => false end.
Definition is_release (c : call) : bool :=
  match c with
  | misc_deregister | gpio_free_array | iounmap _ | free_irq _ => true
  | _ => false
  end.

(** The calls a run adds to the log of [k]. *)
Definition added (k k' : module) : list call := drop (length (log k)) (log k').

End Lifecycle.

(** * Properties *)

(** The three ways an edge ends: period accepted and divided, period 0,
    period of a second or more. *)
Ltac edge_cases :=
  match goal with
  | |- context [?td <? 1000000] =>
      destruct (td <? 1000000); [destruct (td =? 0)|]
  end.

(** ** Integer conversions *)

Lemma to_u32_range x : 0 <= to_u32 x < 2 ^ 32.
Proof. unfold to_u32, wrap_unsigned. apply Z.mod_pos_bound. lia. Qed.

Lemma to_u32_id x : 0 <= x < 2 ^ 32 -> to_u32 x = x.
Proof. intros H. unfold to_u32, wrap_unsigned. apply Z.mod_small. lia. Qed.

Lemma to_int_range x : int_range (to_int x).
Proof.
  unfold int_range, to_int, wrap_signed.
  pose proof (Z.mod_pos_bound (x + 2 ^ (32 - 1)) (2 ^ 32) ltac:(lia)). lia.
Qed.

Lemma to_int_id x : int_range x -> to_int x = x.
Proof.
  unfold int_range, to_int, wrap_signed. intros H.
  rewrite Z.mod_small by lia. lia.
Qed.

Lemma to_size_t_id dm x : 0 <= x < 2 ^ 32 -> to_size_t dm x = x.
Proof.
  intros H. unfold to_size_t, wrap_unsigned. apply Z.mod_small.
  destruct dm; simpl size_bits; lia.
Qed.

Lemma to_size_t_range dm x : 0 <= to_size_t dm x < 2 ^ size_bits dm.
Proof.
  unfold to_size_t, wrap_unsigned. apply Z.mod_pos_bound. destruct dm; simpl; lia.
Qed.

Lemma to_ssize_t_id dm x : - 2 ^ 31 <= x < 2 ^ 31 -> to_ssize_t dm x = x.
Proof.
  intros H. unfold to_ssize_t, wrap_signed.
  destruct dm; simpl size_bits; rewrite Z.mod_small by lia; lia.
Qed.

Lemma to_ssize_t_nonzero dm x : 0 < x < 2 ^ size_bits dm -> to_ssize_t dm x <> 0.
Proof.
  intros H. unfold to_ssize_t, wrap_signed.
  destruct dm; simpl size_bits in *.
  - destruct (Z_lt_ge_dec x (2 ^ 31)).
    + rewrite Z.mod_small by lia. lia.
    + replace (x + 2 ^ (32 - 1)) with (x - 2 ^ 31 + 1 * 2 ^ 32) by lia.
      rewrite Z_mod_plus_full, Z.mod_small by lia. lia.
  - destruct (Z_lt_ge_dec x (2 ^ 63)).
    + rewrite Z.mod_small by lia. lia.
    + replace (x + 2 ^ (64 - 1)) with (x - 2 ^ 63 + 1 * 2 ^ 64) by lia.
      rewrite Z_mod_plus_full, Z.mod_small by lia. lia.
Qed.

(** ** The monad *)

Lemma bind_done {A B} (m : M A) (k : A -> M B) s s' a :
  m s = (s', Done a) -> bind m k s = k a s'.
Proof. intros H. unfold bind. now rewrite H. Qed.

Lemma bind_trap {A B} (m : M A) (k : A -> M B) s s' f :
  m s = (s', Trap f) -> bind m k s = (s', Trap f).
Proof. intros H. unfold bind. now rewrite H. Qed.

Lemma load_some arr i s v : arr s !! i = Some v -> load arr i s = (s, Done v).
Proof. intros H. unfold load. now rewrite H. Qed.

Lemma store_in arr upd i v s :
  (i < length (arr s))%nat -> store arr upd i v s = (upd (<[i := v]> (arr s)) s, Done tt).
Proof. intros H. unfold store. destruct (decide _); [reflexivity | contradiction]. Qed.

(** A loop whose body acts for one index only does what that iteration does. *)
Lemma for_each_only (P : machine -> Prop) (body : nat -> M unit) (i : nat) l :
  (forall j s, j ∈ l -> j <> i -> P s -> body j s = (s, Done tt)) ->
  (forall s, P s -> P (fst (body i s))) ->
  forall s, NoDup l -> i ∈ l -> P s -> for_each l body s = body i s.
Proof.
  intros Hskip Hkeep.
  assert (Hrest : forall l', l' ⊆ l -> forall s, i ∉ l' -> P s ->
                             for_each l' body s = (s, Done tt)).
  { induction l' as [|j l' IH]; intros Hsub s Hni HP; [reflexivity|].
    apply not_elem_of_cons in Hni as [Hne Hni]. simpl.
    rewrite (bind_done _ _ s s tt).
    - apply IH; [|assumption|assumption]. intros x Hx. apply Hsub. now right.
    - apply Hskip; [apply Hsub; left|auto|assumption]. }
  revert Hskip Hrest. induction l as [|j l IH]; intros Hskip Hrest s Hnd Hin HP.
  - inversion Hin.
  - apply NoDup_cons in Hnd as [Hj Hnd]. simpl.
    destruct (decide (j = i)) as [->|Hne].
    + destruct (body i s) as [s' [[]|f]] eqn:E.
      * rewrite (bind_done _ _ _ _ _ E). apply Hrest; [|assumption|].
        -- intros x Hx. now right.
        -- specialize (Hkeep s HP). now rewrite E in Hkeep.
      * now rewrite (bind_trap _ _ _ _ _ E).
    + rewrite (bind_done _ _ s s tt) by (apply Hskip; [left|auto|assumption]).
      apply IH; [| |assumption| |assumption].
      * intros k s0 Hk. apply Hskip. now right.
      * intros l' Hsub. apply Hrest. intros x Hx. right. now apply Hsub.
      * apply elem_of_cons in Hin as [->|Hin]; [contradiction|assumption].
Qed.

(** A relation every iteration respects holds across the whole loop. *)
Lemma for_each_rel (R : machine -> machine -> Prop) (body : nat -> M unit) :
  (forall s, R s s) ->
  (forall s1 s2 s3, R s1 s2 -> R s2 s3 -> R s1 s3) ->
  (forall i s, R s (fst (body i s))) ->
  forall l s, R s (fst (for_each l body s)).
Proof.
  intros Hrefl Htrans Hbody. induction l as [|i l IH]; intros s; simpl.
  - apply Hrefl.
  - unfold bind. specialize (Hbody i s). destruct (body i s) as [s' [[]|f]]; simpl in *.
    + eapply Htrans; [exact Hbody | apply IH].
    + exact Hbody.
Qed.

(** ** The interrupt handler, one channel at a time *)

Lemma vcf_isr_channel_skip timer irq i s q :
  vcf_irqs s !! i = Some q -> q <> irq -> vcf_isr_channel timer irq i s = (s, Done tt).
Proof.
  intros Hq Hne. unfold vcf_isr_channel.
  rewrite (bind_done _ _ _ _ _ (load_some _ _ _ _ Hq)).
  destruct (Z.eqb_spec irq q); [congruence | reflexivity].
Qed.

Lemma vcf_isr_channel_hit timer irq i s last c :
  vcf_irqs s !! i = Some irq ->
  last_pulse_time s !! i = Some last ->
  calib_coeficients s !! i = Some c ->
  (i < length (voltages s))%nat ->
  let n := timer_reads s in
  let td := to_u32 (to_u32 (timer n) - last) in
  let s1 := stamped s i (timer n) (timer (S n)) last in
  vcf_isr_channel timer irq i s =
    if td <? 1000000 then
      if td =? 0 then (s1, Trap DivByZero)
      else (set_voltages (<[i := to_int (to_u32 c / td)]> (voltages s)) s1, Done tt)
    else (s1, Done tt).
Proof.
  intros Hirq Hlast Hc Hi n td s1.
  assert (Hil : (i < length (last_pulse_time s))%nat) by (eapply lookup_lt_Some; eauto).
  unfold vcf_isr_channel.
  rewrite (bind_done _ _ _ _ _ (load_some _ _ _ _ Hirq)), Z.eqb_refl.
  unfold bind at 1. unfold ioread32 at 1.
  rewrite (bind_done _ _ _ _ last) by (apply load_some; exact Hlast).
  unfold bind at 1. unfold modify at 1.
  unfold bind at 1. unfold ioread32 at 1.
  rewrite (bind_done _ _ _ _ tt) by (apply store_in; exact Hil).
  unfold bind at 1. unfold get at 1.
  cbn [time_diff set_last_pulse_time set_time_diff set_timer_reads timer_reads
       last_pulse_time vcf_irqs calib_coeficients voltages txt_buffer].
  fold n. fold td.
  destruct (td <? 1000000); [|reflexivity].
  rewrite (bind_done _ _ _ _ c) by (apply load_some; exact Hc).
  unfold udiv. destruct (td =? 0).
  - reflexivity.
  - unfold bind, ret. rewrite store_in by exact Hi. reflexivity.
Qed.

Lemma isr_frame_refl irq s : isr_frame irq s s.
Proof. constructor; auto. Qed.

Lemma isr_frame_trans irq s1 s2 s3 :
  isr_frame irq s1 s2 -> isr_frame irq s2 s3 -> isr_frame irq s1 s3.
Proof.
  intros [] []. constructor; try congruence; auto.
  intros j Hj. destruct (fr_others1 j) as [-> ->]; [congruence|].
  now apply fr_others0.
Qed.

Lemma stamped_frame irq s i t1 t2 last :
  vcf_irqs s !! i = Some irq -> isr_frame irq s (stamped s i t1 t2 last).
Proof.
  intros Hirq. constructor; simpl; auto.
  - apply length_insert.
  - intros j Hj. split; [|reflexivity].
    apply list_lookup_insert_ne. intros ->. contradiction.
Qed.

Lemma set_voltages_frame irq s i v :
  vcf_irqs s !! i = Some irq -> int_range v ->
  isr_frame irq s (set_voltages (<[i := v]> (voltages s)) s).
Proof.
  intros Hirq Hv. constructor; simpl; auto.
  - apply length_insert.
  - intros H. now apply Forall_insert.
  - intros j Hj. split; [reflexivity|].
    apply list_lookup_insert_ne. intros ->. contradiction.
Qed.

(** One iteration of the loop stays within the frame, whatever the state. *)
Lemma vcf_isr_channel_frame timer irq i s :
  isr_frame irq s (fst (vcf_isr_channel timer irq i s)).
Proof.
  unfold vcf_isr_channel, bind, load.
  destruct (vcf_irqs s !! i) as [q|] eqn:Hq; [|apply isr_frame_refl].
  destruct (Z.eqb_spec irq q) as [<-|Hne]; [|apply isr_frame_refl].
  unfold ioread32 at 1. cbn [vcf_irqs last_pulse_time set_timer_reads timer_reads].
  destruct (last_pulse_time s !! i) as [last|] eqn:Hl.
  2:{ constructor; simpl; auto. }
  unfold modify, ioread32, store, get.
  cbn [vcf_irqs last_pulse_time set_timer_reads set_time_diff timer_reads time_diff].
  destruct (decide _) as [Hlt|Hge].
  2:{ exfalso. apply Hge. eapply lookup_lt_Some; eauto. }
  cbn [time_diff set_last_pulse_time calib_coeficients voltages].
  set (s1 := set_last_pulse_time _ _).
  assert (H1 : isr_frame irq s s1) by (apply (stamped_frame irq s i _ _ last Hq)).
  assert (Hq1 : vcf_irqs s1 !! i = Some irq) by exact Hq.
  destruct (_ <? 1000000); [|exact H1].
  destruct (calib_coeficients s1 !! i) as [c|]; [|exact H1].
  unfold udiv. destruct (_ =? 0); [exact H1|].
  unfold ret. destruct (decide _); [|exact H1].
  eapply isr_frame_trans; [exact H1|].
  apply (set_voltages_frame irq s1 i); [exact Hq1 | apply to_int_range].
Qed.

Theorem vcf_isr_frame timer irq s : isr_frame irq s (fst (vcf_isr timer irq s)).
Proof.
  unfold vcf_isr.
  pose proof (for_each_rel (isr_frame irq) (vcf_isr_channel timer irq)
                (isr_frame_refl irq) (isr_frame_trans irq)
                (vcf_isr_channel_frame timer irq) (seq 0 ARRAY_SIZE_vcf_irqs) s) as H.
  unfold bind. destruct (for_each _ _ s) as [s' [[]|f]]; exact H.
Qed.

(** On a channel with an interrupt of its own the handler is that channel's
    iteration. *)
Lemma on_edge_dedicated s i t last c :
  length (vcf_irqs s) = 5%nat ->
  dedicated s i ->
  last_pulse_time s !! i = Some last ->
  calib_coeficients s !! i = Some c ->
  (i < length (voltages s))%nat ->
  let td := to_u32 (to_u32 t - last) in
  let s1 := stamped s i t t last in
  on_edge i t s =
    if td <? 1000000 then
      if td =? 0 then (s1, Trap DivByZero)
      else (set_voltages (<[i := to_int (to_u32 c / td)]> (voltages s)) s1, Done IRQ_HANDLED)
    else (s1, Done IRQ_HANDLED).
Proof.
  intros Hlen [Hi Hded] Hlast Hc Hv td s1.
  assert (Hirq : vcf_irqs s !! i = Some (irq_of s i)).
  { unfold irq_of. destruct (vcf_irqs s !! i) eqn:E; [reflexivity|].
    apply lookup_ge_None in E. lia. }
  unfold on_edge, vcf_isr.
  pose proof (for_each_only (fun s' => vcf_irqs s' = vcf_irqs s)
                (vcf_isr_channel (fun _ => t) (irq_of s i)) i (seq 0 ARRAY_SIZE_vcf_irqs)) as Honly.
  unfold bind.
  rewrite Honly; clear Honly.
  - rewrite (vcf_isr_channel_hit _ _ _ _ last c Hirq Hlast Hc Hv).
    fold td. fold s1.
    edge_cases; reflexivity.
  - intros j s' Hj Hne HP.
    apply elem_of_seq in Hj. unfold ARRAY_SIZE_vcf_irqs in Hj.
    destruct (vcf_irqs s !! j) as [q|] eqn:E.
    + apply (vcf_isr_channel_skip _ _ _ _ q); [congruence|].
      intros ->. now apply (Hded j).
    + apply lookup_ge_None in E. lia.
  - intros s' HP. rewrite <- HP.
    apply (fr_irqs _ _ _ (vcf_isr_channel_frame _ _ _ _)).
  - apply NoDup_seq.
  - apply elem_of_seq. unfold ARRAY_SIZE_vcf_irqs. lia.
  - reflexivity.
Qed.

(** ** Formatting *)

Lemma put_dec_length fuel n acc :
  (length acc <= length (put_dec fuel n acc) <= fuel + length acc)%nat.
Proof.
  revert n acc. induction fuel as [|fuel IH]; intros n acc; simpl; [lia|].
  destruct (n / 10 =? 0); simpl; [lia|].
  specialize (IH (n / 10) (digit (n mod 10) :: acc)). simpl in IH. lia.
Qed.

Lemma put_dec_nonempty fuel n : (1 <= length (put_dec (S fuel) n []))%nat.
Proof.
  simpl. destruct (n / 10 =? 0); simpl; [lia|].
  pose proof (put_dec_length fuel (n / 10) [digit (n mod 10)]) as H. simpl in H. lia.
Qed.

Lemma fmt_d_length v : (1 <= length (fmt_d v) <= 11)%nat.
Proof.
  unfold fmt_d. destruct (v <? 0).
  - pose proof (put_dec_length 10 (- v) []) as H. simpl length in *. lia.
  - pose proof (put_dec_length 10 v []) as H.
    pose proof (put_dec_nonempty 9 v). simpl length in *. lia.
Qed.

(** The digits come out in front of what was there. *)
Lemma put_dec_app fuel n acc : put_dec fuel n acc = put_dec fuel n [] ++ acc.
Proof.
  revert n acc. induction fuel as [|fuel IH]; intros n acc; simpl; [reflexivity|].
  destruct (n / 10 =? 0); [reflexivity|].
  rewrite (IH _ (_ :: acc)), (IH _ [_]), <- app_assoc. reflexivity.
Qed.

Lemma digit_value_digit d : 0 <= d < 10 -> digit_value (digit d) = d.
Proof.
  intros H. unfold digit_value, digit.
  rewrite nat_ascii_embedding by lia. lia.
Qed.

Lemma digits_value_snoc l c : digits_value (l ++ [c]) = 10 * digits_value l + digit_value c.
Proof. unfold digits_value. rewrite fold_left_app. reflexivity. Qed.

Lemma put_dec_value fuel n :
  0 <= n < 10 ^ Z.of_nat fuel -> digits_value (put_dec fuel n []) = n.
Proof.
  revert n. induction fuel as [|fuel IH]; intros n Hn.
  - simpl in *. unfold digits_value. simpl. lia.
  - rewrite Nat2Z.inj_succ, Z.pow_succ_r in Hn by lia.
    simpl. destruct (Z.eqb_spec (n / 10) 0) as [E|E].
    + unfold digits_value. simpl. rewrite digit_value_digit by (apply Z.mod_pos_bound; lia).
      pose proof (Z.div_mod n 10 ltac:(lia)). lia.
    + rewrite put_dec_app, digits_value_snoc, IH.
      * rewrite digit_value_digit by (apply Z.mod_pos_bound; lia).
        pose proof (Z.div_mod n 10 ltac:(lia)). lia.
      * split; [apply Z.div_pos; lia|]. apply Z.div_lt_upper_bound; lia.
Qed.

Lemma put_dec_head fuel n acc :
  0 <= n -> exists d l, put_dec (S fuel) n acc = digit d :: l /\ 0 <= d < 10.
Proof.
  revert n acc. induction fuel as [|fuel IH]; intros n acc Hn.
  - simpl. exists (n mod 10). destruct (n / 10 =? 0); eexists; (split; [reflexivity|]);
      apply Z.mod_pos_bound; lia.
  - change (put_dec (S (S fuel)) n acc) with
      (let acc' := digit (n mod 10) :: acc in
       if n / 10 =? 0 then acc' else put_dec (S fuel) (n / 10) acc').
    cbv zeta. destruct (n / 10 =? 0).
    + exists (n mod 10). eexists. split; [reflexivity|]. apply Z.mod_pos_bound; lia.
    + apply IH. apply Z.div_pos; lia.
Qed.

(** [%d] writes the decimal text of its argument. *)
Lemma fmt_d_value v : int_range v -> dec_value (fmt_d v) = v.
Proof.
  unfold int_range. intros Hv. unfold fmt_d.
  destruct (Z.ltb_spec v 0) as [Hneg|Hpos].
  - unfold dec_value. rewrite Ascii.eqb_refl, put_dec_value by (simpl Z.of_nat; lia). lia.
  - destruct (put_dec_head 9 v [] Hpos) as (d & l & E & Hd).
    pose proof (put_dec_value 10 v ltac:(simpl Z.of_nat; lia)) as Hval.
    rewrite E in *. unfold dec_value.
    destruct (Ascii.eqb_spec (digit d) "-"%char) as [Heq|_]; [|exact Hval].
    exfalso. apply (f_equal nat_of_ascii) in Heq. unfold digit in Heq.
    rewrite nat_ascii_embedding in Heq by lia.
    change (nat_of_ascii "-") with 45%nat in Heq. lia.
Qed.

(** No padding: the text of a positive number starts with a digit from 1
    to 9. *)
Lemma put_dec_leading fuel n acc :
  0 < n < 10 ^ Z.of_nat fuel ->
  exists d l, put_dec fuel n acc = digit d :: l /\ 1 <= d <= 9.
Proof.
  revert n acc. induction fuel as [|fuel IH]; intros n acc Hn.
  - simpl in Hn. lia.
  - rewrite Nat2Z.inj_succ, Z.pow_succ_r in Hn by lia. simpl.
    pose proof (Z.div_mod n 10 ltac:(lia)) as Hdm.
    pose proof (Z.mod_pos_bound n 10 ltac:(lia)) as Hm.
    destruct (Z.eqb_spec (n / 10) 0) as [E|E].
    + exists (n mod 10). eexists. split; [reflexivity|]. lia.
    + apply IH. split.
      * assert (0 <= n / 10) by (apply Z.div_pos; lia). lia.
      * apply Z.div_lt_upper_bound; lia.
Qed.

Lemma fmt_d_leading v :
  0 < v < 2 ^ 31 -> exists d l, fmt_d v = digit d :: l /\ 1 <= d <= 9.
Proof.
  intros Hv. unfold fmt_d. destruct (Z.ltb_spec v 0); [lia|].
  apply put_dec_leading. simpl Z.of_nat. lia.
Qed.

(** The format string of the module yields the text of the specification. *)
Lemma vformat_voltages v0 v1 v2 v3 v4 :
  vformat voltages_fmt [v0; v1; v2; v3; v4]
  = snapshot_text [to_int v0; to_int v1; to_int v2; to_int v3; to_int v4].
Proof.
  unfold snapshot_text, voltages_fmt, chars. cbn -[fmt_d to_int].
  repeat (rewrite <- app_assoc; cbn -[fmt_d to_int]). reflexivity.
Qed.

Lemma snapshot_text_length vs :
  length vs = 5%nat -> (26 <= length (snapshot_text vs) <= 76)%nat.
Proof.
  intros H. destruct vs as [|v1 [|v2 [|v3 [|v4 [|v5 [|]]]]]]; try discriminate.
  unfold snapshot_text, chars. cbn -[fmt_d].
  repeat (rewrite length_app; cbn -[fmt_d]).
  pose proof (fmt_d_length v1). pose proof (fmt_d_length v2).
  pose proof (fmt_d_length v3). pose proof (fmt_d_length v4).
  pose proof (fmt_d_length v5). lia.
Qed.

Lemma rendered_length_bounds s :
  length (voltages s) = 5%nat -> 27 <= rendered_length s <= 77.
Proof.
  intros H. unfold rendered_length, snapshot. rewrite length_app. simpl length.
  pose proof (snapshot_text_length _ H). lia.
Qed.

(** ** Reading *)

Lemma state_ok_voltages s :
  state_ok s -> exists v0 v1 v2 v3 v4,
    voltages s = [v0; v1; v2; v3; v4] /\
    int_range v0 /\ int_range v1 /\ int_range v2 /\ int_range v3 /\ int_range v4.
Proof.
  intros [_ _ _ _ Hlen Hr _].
  destruct (voltages s) as [|v0 [|v1 [|v2 [|v3 [|v4 [|]]]]]]; try discriminate.
  exists v0, v1, v2, v3, v4. split; [reflexivity|].
  repeat (apply Forall_cons in Hr as [? Hr]). auto.
Qed.

Lemma render_voltages_ok dm s :
  state_ok s -> render_voltages dm s = (rendered s, Done (rendered_length s)).
Proof.
  intros Hok.
  pose proof (rendered_length_bounds s (ok_volt_len s Hok)) as HL.
  destruct (state_ok_voltages s Hok) as (v0 & v1 & v2 & v3 & v4 & Hv & R0 & R1 & R2 & R3 & R4).
  unfold render_voltages.
  rewrite (bind_done _ _ s s v0) by (apply load_some; now rewrite Hv).
  rewrite (bind_done _ _ s s v1) by (apply load_some; now rewrite Hv).
  rewrite (bind_done _ _ s s v2) by (apply load_some; now rewrite Hv).
  rewrite (bind_done _ _ s s v3) by (apply load_some; now rewrite Hv).
  rewrite (bind_done _ _ s s v4) by (apply load_some; now rewrite Hv).
  unfold bind, get, modify, ret, snprintf.
  rewrite vformat_voltages, !to_int_id by assumption.
  unfold rendered. unfold rendered_length, snapshot in *. rewrite <- Hv.
  rewrite length_app in HL. simpl length in HL.
  cbn [fst snd]. rewrite take_ge by lia.
  f_equal. f_equal.
  rewrite length_app. simpl length.
  rewrite (to_size_t_id dm (Z.of_nat _)) by lia.
  rewrite to_size_t_id by lia. lia.
Qed.

Lemma state_ok_rendered s : state_ok s -> state_ok (rendered s).
Proof.
  intros Hok. pose proof (rendered_length_bounds s (ok_volt_len s Hok)) as HL.
  destruct Hok. constructor; simpl; auto.
  unfold rendered_length in HL.
  rewrite length_app, length_drop. lia.
Qed.

Lemma snapshot_rendered s : snapshot (rendered s) = snapshot s.
Proof. reflexivity. Qed.

Lemma rendered_idem s : state_ok s -> rendered (rendered s) = rendered s.
Proof.
  intros Hok. unfold rendered at 1. rewrite snapshot_rendered.
  unfold rendered. simpl txt_buffer. unfold set_txt_buffer. simpl.
  rewrite drop_app_length. reflexivity.
Qed.

(** The part of the buffer a rendering fills. *)
Lemma rendered_buffer s n off :
  (off + n <= length (snapshot s))%nat ->
  take n (drop off (txt_buffer (rendered s))) = take n (drop off (snapshot s)).
Proof.
  intros H. simpl txt_buffer.
  rewrite drop_app_le by lia. rewrite take_app_le; [reflexivity|].
  rewrite length_drop. lia.
Qed.

(** Whether a call renders: always at [offset = 0], and on ILP32 at every
    offset that is not negative. *)
Lemma read_renders dm writable count offset s :
  state_ok s ->
  (dm = ILP32 /\ 0 <= offset < 2 ^ 63) \/ offset = 0 ->
  isov_misc_read dm writable count offset s
  = hand_over dm writable count offset (rendered_length s) (rendered s).
Proof.
  intros Hok Hcase. unfold isov_misc_read.
  assert (Hle : (sub_size_loff dm 0 offset <=? 0) = true).
  { apply Z.leb_le. destruct Hcase as [[-> Ho]| ->].
    - unfold sub_size_loff, to_s64, wrap_signed. rewrite Z.mod_small by lia. lia.
    - destruct dm; reflexivity. }
  rewrite Hle. now rewrite (bind_done _ _ _ _ _ (render_voltages_ok dm s Hok)).
Qed.

Lemma read_stale writable count offset s :
  0 < offset < 2 ^ 63 ->
  isov_misc_read LP64 writable count offset s = hand_over LP64 writable count offset 0 s.
Proof.
  intros Ho. unfold isov_misc_read.
  assert (Hle : (sub_size_loff LP64 0 offset <=? 0) = false).
  { apply Z.leb_gt. unfold sub_size_loff, to_u64, wrap_unsigned.
    replace (0 - offset) with (2 ^ 64 - offset + (-1) * 2 ^ 64) by lia.
    rewrite Z_mod_plus_full, Z.mod_small by lia. lia. }
  rewrite Hle. reflexivity.
Qed.

Lemma transfer_length_within dm txt_len offset count :
  0 <= offset <= txt_len -> txt_len < 2 ^ 31 -> 0 <= count < 2 ^ 31 ->
  transfer_length dm txt_len offset count = Z.min count (txt_len - offset).
Proof.
  intros Ho Ht Hc. unfold transfer_length.
  assert (Hd : sub_size_loff dm txt_len offset = txt_len - offset).
  { destruct dm; unfold sub_size_loff, to_s64, to_u64, wrap_signed, wrap_unsigned;
      rewrite Z.mod_small by lia; lia. }
  rewrite Hd. destruct (Z.gtb_spec (txt_len - offset) count);
    rewrite to_size_t_id by lia; lia.
Qed.

Lemma transfer_length_stale offset count :
  0 < offset < 2 ^ 63 -> 0 <= count < 2 ^ 31 ->
  transfer_length LP64 0 offset count = count.
Proof.
  intros Ho Hc. unfold transfer_length.
  assert (Hd : sub_size_loff LP64 0 offset = 2 ^ 64 - offset).
  { unfold sub_size_loff, to_u64, wrap_unsigned.
    replace (0 - offset) with (2 ^ 64 - offset + (-1) * 2 ^ 64) by lia.
    rewrite Z_mod_plus_full, Z.mod_small by lia. lia. }
  rewrite Hd. destruct (Z.gtb_spec (2 ^ 64 - offset) count); [|lia].
  apply to_size_t_id. lia.
Qed.

Lemma hand_over_nodata dm writable count offset txt_len s :
  transfer_length dm txt_len offset count = 0 ->
  hand_over dm writable count offset txt_len s = (s, Done (ReadResult (- ENODATA) [])).
Proof. intros H. unfold hand_over. rewrite H. reflexivity. Qed.

Lemma hand_over_copy dm writable count offset txt_len s len :
  transfer_length dm txt_len offset count = len ->
  0 < len < 2 ^ 31 -> 0 <= offset ->
  offset + len + 1 <= Z.of_nat (length (txt_buffer s)) ->
  len + 1 <= writable ->
  hand_over dm writable count offset txt_len s
  = (s, Done (ReadResult len
        (take (Z.to_nat (len + 1)) (drop (Z.to_nat offset) (txt_buffer s))))).
Proof.
  intros Hlen Hl Ho Hb Hw. unfold hand_over. rewrite Hlen.
  destruct (Z.leb_spec len 0); [lia|].
  unfold bind, get. rewrite (to_size_t_id dm (len + 1)) by lia.
  destruct (Z.ltb_spec offset 0); [lia|].
  destruct (Z.ltb_spec (Z.of_nat (length (txt_buffer s))) (offset + (len + 1))); [lia|].
  cbn [orb]. unfold copy_to_user. cbn [fst snd].
  replace (Z.min (len + 1) (Z.max 0 writable)) with (len + 1) by lia.
  rewrite Z.sub_diag. cbn [Z.eqb negb]. unfold ret.
  rewrite to_ssize_t_id by lia. reflexivity.
Qed.

(** No call returns 0. *)
Lemma hand_over_never_zero dm writable count offset txt_len s r :
  snd (hand_over dm writable count offset txt_len s) = Done r -> rr_ret r <> 0.
Proof.
  unfold hand_over. set (len := transfer_length _ _ _ _).
  assert (Hr : 0 <= len < 2 ^ size_bits dm) by apply to_size_t_range.
  destruct (Z.leb_spec len 0).
  - intros [= <-]. discriminate.
  - unfold bind, get. destruct (_ || _); [discriminate|].
    destruct (negb _); intros [= <-]; simpl rr_ret.
    + discriminate.
    + apply to_ssize_t_nonzero. lia.
Qed.

Lemma read_never_zero dm writable count offset s r :
  snd (isov_misc_read dm writable count offset s) = Done r -> rr_ret r <> 0.
Proof.
  unfold isov_misc_read, bind.
  destruct (if _ <=? 0 then _ else _) as [s' [n|f]]; [|discriminate].
  apply hand_over_never_zero.
Qed.

Lemma hand_over_state dm writable count offset txt_len s :
  fst (hand_over dm writable count offset txt_len s) = s.
Proof.
  unfold hand_over. destruct (_ <=? 0); [reflexivity|].
  unfold bind, get. destruct (_ || _); [reflexivity|].
  destruct (negb _); reflexivity.
Qed.

(** ** Well-formed states are kept *)

Lemma state_ok_init : state_ok init_machine.
Proof.
  constructor; try reflexivity.
  - repeat constructor; lia.
  - unfold int_range. repeat constructor; lia.
Qed.

Lemma state_ok_isr timer irq s : state_ok s -> state_ok (fst (vcf_isr timer irq s)).
Proof.
  intros Hok. destruct (vcf_isr_frame timer irq s), Hok.
  constructor; try congruence; auto.
Qed.

Lemma state_ok_read dm writable count offset s :
  state_ok s -> state_ok (fst (isov_misc_read dm writable count offset s)).
Proof.
  intros Hok. unfold isov_misc_read, bind.
  destruct (_ <=? 0).
  - rewrite (render_voltages_ok dm s Hok), hand_over_state. now apply state_ok_rendered.
  - unfold ret. now rewrite hand_over_state.
Qed.

Lemma state_ok_isov_init gpio_rc irq0 request_rc s :
  state_ok s -> state_ok (fst (isov_init gpio_rc irq0 request_rc s)).
Proof.
  intros Hok. unfold isov_init. destruct (negb _); [exact Hok|].
  unfold bind, store. destruct (decide _); [|exact Hok].
  assert (Hok' : state_ok (set_vcf_irqs (<[0%nat := irq0]> (vcf_irqs s)) s)).
  { destruct Hok. constructor; simpl; auto. now rewrite length_insert. }
  destruct (irq0 <? 0); [exact Hok'|]. destruct (negb _); exact Hok'.
Qed.

Lemma reachable_ok s : reachable s -> state_ok s.
Proof.
  induction 1 as [|s g q rq s' r _ IH E|s tm irq s' r _ IH E
                  |s dm w c o s' r _ IH E|s b c o s' r _ IH E].
  - exact state_ok_init.
  - pose proof (state_ok_isov_init g q rq s IH) as H. now rewrite E in H.
  - pose proof (state_ok_isr tm irq s IH) as H. now rewrite E in H.
  - pose proof (state_ok_read dm w c o s IH) as H. now rewrite E in H.
  - injection E as <- _. exact IH.
Qed.

Lemma reachable_booted : reachable booted.
Proof. apply (reach_init init_machine 0 17 0 booted 0 reach_start). reflexivity. Qed.

Lemma dedicated_booted : dedicated booted 0.
Proof.
  split; [lia|]. intros [|[|[|[|[|j]]]]] Hj; try discriminate; congruence.
Qed.

(** ** The edge handler on a channel with an interrupt of its own *)

Lemma on_edge_frame i t s : isr_frame (irq_of s i) s (fst (on_edge i t s)).
Proof. apply vcf_isr_frame. Qed.

Lemma to_u32_diff a p : to_u32 (to_u32 (a + p) - to_u32 a) = to_u32 p.
Proof.
  unfold to_u32, wrap_unsigned. rewrite <- Zminus_mod. f_equal. lia.
Qed.

Section Dedicated.

Variables (s : machine) (i : nat).
Hypothesis Hok : state_ok s.
Hypothesis Hded : dedicated s i.

Lemma dedicated_lookups :
  exists last c, last_pulse_time s !! i = Some last /\ calib_coeficients s !! i = Some c /\
    0 <= c < 2 ^ 31 /\ (i < length (voltages s))%nat.
Proof.
  destruct Hded as [Hi _]. destruct Hok.
  destruct (lookup_lt_is_Some_2 (last_pulse_time s) i ltac:(lia)) as [last Hl].
  destruct (lookup_lt_is_Some_2 (calib_coeficients s) i ltac:(lia)) as [c Hc].
  exists last, c. repeat split; auto; try lia;
    apply (Forall_lookup_1 _ _ _ _ ok_calib0 Hc).
Qed.

Lemma on_edge_keeps t :
  state_ok (fst (on_edge i t s)) /\ dedicated (fst (on_edge i t s)) i.
Proof.
  destruct Hded as [Hi Hd]. split; [now apply state_ok_isr|].
  pose proof (fr_irqs _ _ _ (on_edge_frame i t s)) as E.
  split; [exact Hi|]. unfold irq_of. rewrite E. exact Hd.
Qed.

(** The time stamp is stored whatever becomes of the division. *)
Lemma on_edge_stamps t :
  last_pulse_time (fst (on_edge i t s)) !! i = Some (to_u32 t).
Proof.
  destruct dedicated_lookups as (last & c & Hl & Hc & _ & Hv).
  rewrite (on_edge_dedicated s i t last c (ok_irqs s Hok) Hded Hl Hc Hv).
  assert (Hil : (i < length (last_pulse_time s))%nat) by (eapply lookup_lt_Some; eauto).
  edge_cases; simpl; now apply list_lookup_insert_eq.
Qed.

(** The second of two edges, in the state the first one leaves. *)
Lemma second_edge t0 t :
  exists c, calib_coeficients s !! i = Some c /\ 0 <= c < 2 ^ 31 /\
  let s1 := fst (on_edge i t0 s) in
  let td := to_u32 (to_u32 t - to_u32 t0) in
  let s2 := stamped s1 i t t (to_u32 t0) in
  on_edge i t s1 =
    if td <? 1000000 then
      if td =? 0 then (s2, Trap DivByZero)
      else (set_voltages (<[i := to_int (to_u32 c / td)]> (voltages s1)) s2, Done IRQ_HANDLED)
    else (s2, Done IRQ_HANDLED).
Proof.
  destruct dedicated_lookups as (last & c & Hl & Hc & Hcr & Hv).
  exists c. split; [exact Hc|]. split; [exact Hcr|].
  intros s1 td s2.
  destruct (on_edge_keeps t0) as [Hok1 Hded1]. fold s1 in Hok1, Hded1.
  pose proof (on_edge_stamps t0) as Hl1. fold s1 in Hl1.
  assert (Hc1 : calib_coeficients s1 !! i = Some c).
  { unfold s1. now rewrite (fr_calib _ _ _ (on_edge_frame i t0 s)). }
  assert (Hv1 : (i < length (voltages s1))%nat).
  { unfold s1. now rewrite (fr_volt_len _ _ _ (on_edge_frame i t0 s)). }
  exact (on_edge_dedicated s1 i t (to_u32 t0) c (ok_irqs s1 Hok1) Hded1 Hl1 Hc1 Hv1).
Qed.

End Dedicated.

Lemma state_ok_booted : state_ok booted.
Proof. exact (reachable_ok _ reachable_booted). Qed.

(** * The claims *)

(** C1. The handler has no guard for a period of 0: on a channel with an
    interrupt of its own, an edge whose wrap-around distance to the stored
    time stamp is 0 passes the test [time_diff < 1000000] and evaluates
    [calib_coeficients[i] / time_diff], which is a division by zero.  The
    claim that the division is skipped does not hold of the code. *)
Theorem C1_zero_period_is_divided s i t :
  state_ok s -> dedicated s i -> period s i t = 0 ->
  snd (on_edge i t s) = Trap DivByZero.
Proof.
  intros Hok Hded Hp.
  destruct (dedicated_lookups s i Hok Hded) as (last & c & Hl & Hc & _ & Hv).
  rewrite (on_edge_dedicated s i t last c (ok_irqs s Hok) Hded Hl Hc Hv).
  unfold period in Hp. rewrite Hl in Hp. simpl in Hp. rewrite Hp. reflexivity.
Qed.

Lemma C1_zero_period_is_divided_witness :
  state_ok booted /\ dedicated booted 0 /\ period booted 0 0 = 0 /\
  snd (on_edge 0 0 booted) = Trap DivByZero.
Proof.
  split; [exact state_ok_booted|]. split; [exact dedicated_booted|].
  split; [reflexivity|].
  apply (C1_zero_period_is_divided booted 0 0);
    [exact state_ok_booted | exact dedicated_booted | reflexivity].
Defined.

(** C2. For every channel [i] with an interrupt of its own, every time
    stamp [t0] and every period [p] with [0 < p < 1000000]: the edge at
    [t0 + p], handled in the state the edge at [t0] leaves, completes and
    sets the voltage of channel [i] to its calibration coefficient divided
    by [p], truncated toward zero.  The edge at [t0] itself completes
    whenever its own period is not 0. *)
Theorem C2_valid_period_sets_voltage s i t0 p c :
  state_ok s -> dedicated s i -> calib_coeficients s !! i = Some c ->
  0 < p < 1000000 ->
  let r1 := on_edge i t0 s in
  let r2 := on_edge i (t0 + p) (fst r1) in
  (period s i t0 <> 0 -> snd r1 = Done IRQ_HANDLED) /\
  snd r2 = Done IRQ_HANDLED /\
  voltages (fst r2) !! i = Some (c ÷ p) /\
  calib_coeficients (fst r2) !! i = Some c.
Proof.
  intros Hok Hded Hc Hp r1 r2. split.
  - intros Hne. unfold r1.
    destruct (dedicated_lookups s i Hok Hded) as (last & c' & Hl & Hc' & _ & Hv).
    rewrite (on_edge_dedicated s i t0 last c' (ok_irqs s Hok) Hded Hl Hc' Hv).
    unfold period in Hne. rewrite Hl in Hne. simpl in Hne.
    destruct (_ <? 1000000); [|reflexivity].
    destruct (Z.eqb_spec (to_u32 (to_u32 t0 - last)) 0); [contradiction|reflexivity].
  - destruct (second_edge s i Hok Hded t0 (t0 + p)) as (c' & Hc' & Hcr & E).
    cbv zeta in E. rewrite to_u32_diff in E.
    assert (c' = c) as -> by congruence.
    assert (Hv1 : (i < length (voltages (fst r1)))%nat).
    { unfold r1. rewrite (fr_volt_len _ _ _ (on_edge_frame i t0 s)).
      destruct Hded. rewrite (ok_volt_len s Hok). lia. }
    assert (Hc1 : calib_coeficients (fst r1) !! i = Some c).
    { unfold r1. now rewrite (fr_calib _ _ _ (on_edge_frame i t0 s)). }
    unfold r2, r1 in *. rewrite E. rewrite (to_u32_id p) by lia.
    destruct (Z.ltb_spec p 1000000); [|lia].
    destruct (Z.eqb_spec p 0); [lia|]. cbn [fst snd].
    split; [reflexivity|]. split; [|exact Hc1].
    simpl voltages. rewrite list_lookup_insert_eq by exact Hv1. f_equal.
    rewrite (to_u32_id c) by lia.
    rewrite Z.quot_div_nonneg by lia.
    apply to_int_id. unfold int_range.
    assert (0 <= c / p <= c); [|lia].
    split; [apply Z.div_pos; lia|]. apply Z.div_le_upper_bound; nia.
Qed.

Lemma C2_valid_period_sets_voltage_witness :
  state_ok booted /\ dedicated booted 0 /\
  calib_coeficients booted !! 0%nat = Some 7692308 /\ 0 < 1000 < 1000000 /\
  snd (on_edge 0 5 booted) = Done IRQ_HANDLED /\
  snd (on_edge 0 (5 + 1000) (fst (on_edge 0 5 booted))) = Done IRQ_HANDLED /\
  voltages (fst (on_edge 0 (5 + 1000) (fst (on_edge 0 5 booted)))) !! 0%nat = Some 7692.
Proof.
  split; [exact state_ok_booted|]. split; [exact dedicated_booted|].
  split; [reflexivity|]. split; [lia|].
  destruct (C2_valid_period_sets_voltage booted 0 5 1000 7692308) as (H1 & H2 & H3 & _);
    [exact state_ok_booted | exact dedicated_booted | reflexivity | lia |].
  split; [apply H1; vm_compute; discriminate|]. split; [exact H2 | exact H3].
Defined.

(** C5. Two edges [p] ticks apart on a channel with an interrupt of its
    own.  For [1000000 <= p < 2^32] the second edge completes, leaves the
    voltage as it was and stores [t0 + p] (modulo 2^32) as the time stamp.
    For [p = 0] it does not leave the voltage alone: it divides the
    coefficient by 0. *)
Theorem C5_invalid_period s i t0 p :
  state_ok s -> dedicated s i ->
  let s1 := fst (on_edge i t0 s) in
  let r2 := on_edge i (t0 + p) s1 in
  (1000000 <= p < 2 ^ 32 ->
     snd r2 = Done IRQ_HANDLED /\
     voltages (fst r2) !! i = voltages s1 !! i /\
     last_pulse_time (fst r2) !! i = Some (to_u32 (t0 + p))) /\
  (p = 0 -> snd r2 = Trap DivByZero).
Proof.
  intros Hok Hded s1 r2.
  destruct (second_edge s i Hok Hded t0 (t0 + p)) as (c & Hc & Hcr & E).
  cbv zeta in E. rewrite to_u32_diff in E. fold s1 in E. fold r2 in E.
  destruct (on_edge_keeps s i Hok Hded t0) as [Hok1 Hded1]. fold s1 in Hok1, Hded1.
  split.
  - intros Hp. rewrite (to_u32_id p) in E by lia.
    destruct (Z.ltb_spec p 1000000); [lia|]. rewrite E. cbn [fst snd].
    split; [reflexivity|]. split; [reflexivity|].
    simpl. apply list_lookup_insert_eq.
    destruct Hded. rewrite (ok_last s1 Hok1). lia.
  - intros ->. rewrite E. reflexivity.
Qed.

Lemma C5_invalid_period_witness :
  state_ok booted /\ dedicated booted 0 /\
  snd (on_edge 0 (5 + 0) (fst (on_edge 0 5 booted))) = Trap DivByZero /\
  snd (on_edge 0 (5 + 2000000) (fst (on_edge 0 5 booted))) = Done IRQ_HANDLED /\
  voltages (fst (on_edge 0 (5 + 2000000) (fst (on_edge 0 5 booted)))) !! 0%nat
  = voltages (fst (on_edge 0 5 booted)) !! 0%nat.
Proof.
  split; [exact state_ok_booted|]. split; [exact dedicated_booted|].
  split.
  - apply (C5_invalid_period booted 0 5 0);
      [exact state_ok_booted | exact dedicated_booted | reflexivity].
  - destruct (C5_invalid_period booted 0 5 2000000) as [H _];
      [exact state_ok_booted | exact dedicated_booted |].
    destruct H as (H1 & H2 & _); [lia|]. split; [exact H1 | exact H2].
Defined.

(** C6. The period is the difference of the two time stamps modulo 2^32,
    a number from 0 up to 2^32 - 1 also when the counter has wrapped: on a
    channel with an interrupt of its own, the edge at [0x00000010] that
    follows the edge at [0xFFFFFFF0] completes with a period of [0x20]. *)
Theorem C6_wraparound_period s i t :
  state_ok s -> dedicated s i ->
  (time_diff (fst (on_edge i t s)) = period s i t /\
   period s i t = (to_u32 t - default 0 (last_pulse_time s !! i)) mod 2 ^ 32 /\
   0 <= period s i t < 2 ^ 32) /\
  let r2 := on_edge i 0x00000010 (fst (on_edge i 0xFFFFFFF0 s)) in
  snd r2 = Done IRQ_HANDLED /\ time_diff (fst r2) = 0x20.
Proof.
  intros Hok Hded. split.
  - split; [|split; [reflexivity | apply to_u32_range]].
    destruct (dedicated_lookups s i Hok Hded) as (last & c & Hl & Hc & _ & Hv).
    rewrite (on_edge_dedicated s i t last c (ok_irqs s Hok) Hded Hl Hc Hv).
    unfold period. rewrite Hl.
    edge_cases; reflexivity.
  - destruct (second_edge s i Hok Hded 0xFFFFFFF0 0x00000010) as (c & Hc & Hcr & E).
    cbv zeta in E.
    change (to_u32 (to_u32 0x00000010 - to_u32 0xFFFFFFF0)) with 0x20 in E.
    change (0x20 <? 1000000) with true in E. change (0x20 =? 0) with false in E.
    cbv iota in E. rewrite E. split; reflexivity.
Qed.

Lemma C6_wraparound_period_witness :
  state_ok booted /\ dedicated booted 0 /\
  let r2 := on_edge 0 0x00000010 (fst (on_edge 0 0xFFFFFFF0 booted)) in
  snd r2 = Done IRQ_HANDLED /\ time_diff (fst r2) = 0x20.
Proof.
  split; [exact state_ok_booted|]. split; [exact dedicated_booted|].
  apply (C6_wraparound_period booted 0 0); [exact state_ok_booted | exact dedicated_booted].
Defined.

(** Reading changes the text buffer and nothing else. *)
Lemma render_voltages_frame dm s :
  let s' := fst (render_voltages dm s) in
  vcf_irqs s' = vcf_irqs s /\ last_pulse_time s' = last_pulse_time s /\
  calib_coeficients s' = calib_coeficients s /\ voltages s' = voltages s.
Proof.
  unfold render_voltages, bind, load, get, modify, ret.
  destruct (voltages s !! 0%nat); [|simpl; auto].
  destruct (voltages s !! 1%nat); [|simpl; auto].
  destruct (voltages s !! 2%nat); [|simpl; auto].
  destruct (voltages s !! 3%nat); [|simpl; auto].
  destruct (voltages s !! 4%nat); simpl; auto.
Qed.

Lemma isov_misc_read_frame dm writable count offset s :
  let s' := fst (isov_misc_read dm writable count offset s) in
  vcf_irqs s' = vcf_irqs s /\ last_pulse_time s' = last_pulse_time s /\
  calib_coeficients s' = calib_coeficients s /\ voltages s' = voltages s.
Proof.
  unfold isov_misc_read, bind. destruct (_ <=? 0).
  - pose proof (render_voltages_frame dm s) as H.
    destruct (render_voltages dm s) as [s1 [n|f]]; [rewrite hand_over_state|]; exact H.
  - unfold ret. rewrite hand_over_state. auto.
Qed.

(** C8. Writing fails for every input: the call returns [-EINVAL], the
    error number of an invalid argument, and changes nothing. *)
Theorem C8_write_always_fails buf count offset s :
  isov_misc_write buf count offset s = (s, Done (- EINVAL)) /\ - EINVAL < 0.
Proof. split; [reflexivity | unfold EINVAL; lia]. Qed.

(** C10. An edge on a channel [i] with an interrupt of its own leaves the
    time stamp, the voltage and the calibration coefficient of every other
    channel [j] as they were, and neither the handler for any interrupt,
    nor reading, nor writing changes a calibration coefficient. *)
Theorem C10_frame s i t j :
  dedicated s i -> j <> i ->
  let s' := fst (on_edge i t s) in
  (last_pulse_time s' !! j = last_pulse_time s !! j /\
   voltages s' !! j = voltages s !! j /\
   calib_coeficients s' !! j = calib_coeficients s !! j) /\
  (forall timer irq,
     calib_coeficients (fst (vcf_isr timer irq s)) = calib_coeficients s) /\
  (forall dm writable count offset,
     calib_coeficients (fst (isov_misc_read dm writable count offset s))
     = calib_coeficients s) /\
  (forall buf count offset,
     calib_coeficients (fst (isov_misc_write buf count offset s)) = calib_coeficients s).
Proof.
  intros [Hi Hded] Hj s'. repeat split.
  - apply (fr_others _ _ _ (on_edge_frame i t s)). now apply Hded.
  - apply (fr_others _ _ _ (on_edge_frame i t s)). now apply Hded.
  - unfold s'. now rewrite (fr_calib _ _ _ (on_edge_frame i t s)).
  - intros timer irq. apply (fr_calib _ _ _ (vcf_isr_frame timer irq s)).
  - intros dm writable count offset.
    apply (isov_misc_read_frame dm writable count offset s).
Qed.

Lemma C10_frame_witness :
  let s' := fst (on_edge 0 1000 booted) in
  dedicated booted 0 /\ 3%nat <> 0%nat /\
  voltages s' !! 0%nat = Some 7692 /\
  last_pulse_time s' !! 3%nat = last_pulse_time booted !! 3%nat /\
  voltages s' !! 3%nat = voltages booted !! 3%nat /\
  calib_coeficients s' !! 3%nat = calib_coeficients booted !! 3%nat.
Proof.
  split; [exact dedicated_booted|]. split; [lia|]. split; [reflexivity|].
  apply (C10_frame booted 0 1000 3); [exact dedicated_booted | lia].
Defined.

(** ** Reading a chunk *)

Lemma hand_over_result dm writable count offset txt_len s len r :
  transfer_length dm txt_len offset count = len -> 0 < len < 2 ^ 31 ->
  snd (hand_over dm writable count offset txt_len s) = Done r ->
  rr_ret r = - EFAULT \/ rr_ret r = len.
Proof.
  intros Hlen Hl. unfold hand_over. rewrite Hlen.
  destruct (Z.leb_spec len 0); [lia|].
  unfold bind, get. destruct (_ || _); [discriminate|].
  destruct (negb _); intros [= <-]; simpl; [now left|right].
  apply to_ssize_t_id. lia.
Qed.

(** A call that renders, at a position inside the snapshot. *)
Lemma read_at dm writable count offset s :
  state_ok s ->
  dm = ILP32 \/ offset = 0 ->
  0 <= offset < rendered_length s ->
  1 <= count < 2 ^ 31 ->
  let len := Z.min count (rendered_length s - offset) in
  len + 1 <= writable ->
  exists r, isov_misc_read dm writable count offset s = (rendered s, Done r) /\
    rr_ret r = len /\
    rr_bytes r = take (Z.to_nat len) (drop (Z.to_nat offset) (snapshot s)).
Proof.
  intros Hok Hdm Ho Hc len Hw.
  pose proof (rendered_length_bounds s (ok_volt_len s Hok)) as HL.
  assert (Hr : (dm = ILP32 /\ 0 <= offset < 2 ^ 63) \/ offset = 0)
    by (destruct Hdm; [left; split; [assumption|lia] | now right]).
  rewrite (read_renders dm writable count offset s Hok Hr).
  assert (Hlen : transfer_length dm (rendered_length s) offset count = len)
    by (apply transfer_length_within; lia).
  rewrite (hand_over_copy dm writable count offset _ _ len Hlen); try lia.
  - eexists. split; [reflexivity|]. split; [reflexivity|].
    unfold rr_bytes. cbn [rr_ret rr_user]. rewrite take_take.
    replace (Z.to_nat len `min` Z.to_nat (len + 1))%nat with (Z.to_nat len) by lia.
    apply rendered_buffer. unfold rendered_length in *. lia.
  - rewrite (ok_buf _ (state_ok_rendered s Hok)). lia.
Qed.

(** A call on LP64 at a position past 0: it takes what the buffer holds. *)
Lemma read_at_stale writable count offset s :
  0 < offset < 2 ^ 63 -> 1 <= count < 2 ^ 31 ->
  offset + count + 1 <= Z.of_nat (length (txt_buffer s)) ->
  count + 1 <= writable ->
  exists r, isov_misc_read LP64 writable count offset s = (s, Done r) /\
    rr_ret r = count /\
    rr_bytes r = take (Z.to_nat count) (drop (Z.to_nat offset) (txt_buffer s)).
Proof.
  intros Ho Hc Hb Hw.
  rewrite read_stale by lia.
  rewrite (hand_over_copy LP64 writable count offset 0 s count); try lia.
  - eexists. split; [reflexivity|]. split; [reflexivity|].
    unfold rr_bytes. cbn [rr_ret rr_user]. rewrite take_take. f_equal. lia.
  - apply transfer_length_stale; lia.
Qed.

Lemma take_whole {A} (l : list A) n :
  Z.of_nat (length l) <= n -> take (Z.to_nat n) l = l.
Proof. intros H. apply take_ge. lia. Qed.

(** C3 as stated fails.  A call with [count = 0] is to return
    [min(0, 27 - 0) = 0] bytes, and the module returns the error
    [-ENODATA] instead, on either data model.  On LP64 a call at an offset
    past 0 does not look at the length of the text: asked for 100 bytes at
    offset 5 it returns 100, not the 22 that are left. *)
Lemma C3_counterexample_zero_count :
  rendered_length init_machine = 27 /\
  ~ returns_chunk ILP32 64 0 0 init_machine /\
  ~ returns_chunk LP64 64 0 0 init_machine /\
  ~ returns_chunk LP64 200 100 5 init_machine.
Proof.
  split; [reflexivity|].
  repeat split; intros (r & Hr & Hret & _); vm_compute in Hr;
    injection Hr as <-; vm_compute in Hret; discriminate.
Qed.

(** C3, amended.  For [count >= 1] and [0 <= offset < rendered_length] (on
    LP64: [offset = 0]), a call whose caller can take one byte more than
    the call returns hands back exactly
    [min(count, rendered_length - offset)] bytes, those of the snapshot
    from [offset] on.  Reading the first [k] bytes and then, at offset [k],
    the remaining [rendered_length - k] yields byte for byte what one call
    for the whole length yields, which is the snapshot. *)
Theorem C3_read_chunks dm s writable count offset k :
  state_ok s ->
  1 <= count < 2 ^ 31 ->
  0 <= offset < rendered_length s ->
  dm = ILP32 \/ offset = 0 ->
  1 <= k < rendered_length s ->
  (Z.min count (rendered_length s - offset) + 1 <= writable ->
   returns_chunk dm writable count offset s) /\
  (rendered_length s + 1 <= writable ->
   let c1 := isov_misc_read dm writable k 0 s in
   let c2 := isov_misc_read dm writable (rendered_length s - k) k (fst c1) in
   let c := isov_misc_read dm writable (rendered_length s) 0 s in
   exists r1 r2 r, snd c1 = Done r1 /\ snd c2 = Done r2 /\ snd c = Done r /\
     rr_ret r1 = k /\ rr_ret r2 = rendered_length s - k /\
     rr_ret r = rendered_length s /\
     rr_bytes r1 ++ rr_bytes r2 = rr_bytes r /\ rr_bytes r = snapshot s).
Proof.
  intros Hok Hc Ho Hdm Hk.
  pose proof (rendered_length_bounds s (ok_volt_len s Hok)) as HL.
  set (L := rendered_length s) in *.
  split.
  - intros Hw.
    destruct (read_at dm writable count offset s Hok Hdm Ho Hc Hw)
      as (r & E & Hret & Hbytes).
    exists r. rewrite E. auto.
  - intros Hw.
    destruct (read_at dm writable k 0 s Hok (or_intror eq_refl) ltac:(fold L; lia)
                ltac:(lia) ltac:(fold L; lia)) as (r1 & E1 & Hret1 & Hb1).
    destruct (read_at dm writable L 0 s Hok (or_intror eq_refl) ltac:(fold L; lia)
                ltac:(lia) ltac:(fold L; lia)) as (r & E & Hret & Hb).
    fold L in Hret1, Hb1, Hret, Hb.
    replace (Z.min k (L - 0)) with k in * by lia.
    replace (Z.min L (L - 0)) with L in * by lia.
    assert (Hsnap : Z.of_nat (length (snapshot s)) = L) by reflexivity.
    assert (H2 : exists r2, snd (isov_misc_read dm writable (L - k) k (rendered s)) = Done r2 /\
                   rr_ret r2 = L - k /\
                   rr_bytes r2 = drop (Z.to_nat k) (snapshot s)).
    { destruct dm.
      - destruct (read_at ILP32 writable (L - k) k (rendered s) (state_ok_rendered s Hok)
                    (or_introl eq_refl)) as (r2 & E2 & Hret2 & Hb2);
          try (change (rendered_length (rendered s)) with L; lia).
        change (rendered_length (rendered s)) with L in *.
        replace (Z.min (L - k) (L - k)) with (L - k) in * by lia.
        exists r2. rewrite E2. split; [reflexivity|]. split; [exact Hret2|].
        rewrite Hb2, snapshot_rendered. apply take_ge. rewrite length_drop. lia.
      - destruct (read_at_stale writable (L - k) k (rendered s)) as (r2 & E2 & Hret2 & Hb2);
          try lia.
        { rewrite (ok_buf _ (state_ok_rendered s Hok)). lia. }
        exists r2. rewrite E2. split; [reflexivity|]. split; [exact Hret2|].
        rewrite Hb2, rendered_buffer by lia.
        apply take_ge. rewrite length_drop. lia. }
    destruct H2 as (r2 & E2 & Hret2 & Hb2).
    cbv zeta. rewrite E1, E. cbn [fst snd].
    exists r1, r2, r. repeat split; try assumption.
    + rewrite Hb1, Hb2, Hb. change (Z.to_nat 0) with 0%nat. rewrite !drop_0.
      rewrite (take_whole (snapshot s) L) by lia. apply take_drop.
    + rewrite Hb. change (Z.to_nat 0) with 0%nat. rewrite drop_0.
      apply take_whole. lia.
Qed.

Lemma C3_read_chunks_witness :
  state_ok booted /\ rendered_length booted = 27 /\
  returns_chunk ILP32 64 10 3 booted /\
  exists r1 r2 r,
    snd (isov_misc_read LP64 64 5 0 booted) = Done r1 /\
    snd (isov_misc_read LP64 64 (27 - 5) 5 (fst (isov_misc_read LP64 64 5 0 booted))) = Done r2 /\
    snd (isov_misc_read LP64 64 27 0 booted) = Done r /\
    rr_bytes r1 ++ rr_bytes r2 = rr_bytes r.
Proof.
  split; [exact state_ok_booted|]. split; [reflexivity|]. split.
  - apply (C3_read_chunks ILP32 booted 64 10 3 5);
      [exact state_ok_booted | lia
      | vm_compute; split; [discriminate | reflexivity]
      | now left | vm_compute; split; [discriminate | reflexivity]
      | vm_compute; discriminate].
  - destruct (C3_read_chunks LP64 booted 64 1 0 5) as [_ H];
      [exact state_ok_booted | lia
      | vm_compute; split; [discriminate | reflexivity]
      | now right | vm_compute; split; [discriminate | reflexivity] |].
    destruct H as (r1 & r2 & r & H1 & H2 & H3 & _ & _ & _ & H & _);
      [vm_compute; discriminate|].
    exists r1, r2, r. auto.
Defined.

(** C4 as stated fails: at [offset = rendered_length] (27 in the initial
    state) a call does not return 0 bytes.  On ILP32 it renders and fails
    with [-ENODATA]; on LP64 it does not render and returns [count] bytes
    from behind the text. *)
Lemma C4_counterexample_end_of_session :
  rendered_length init_machine = 27 /\
  ~ returns_no_bytes ILP32 64 10 27 init_machine /\
  ~ returns_no_bytes LP64 64 10 27 init_machine /\
  snd (isov_misc_read ILP32 64 10 27 init_machine) = Done (ReadResult (- ENODATA) []) /\
  snd (isov_misc_read LP64 64 10 27 init_machine) = Done (ReadResult 10 (replicate 11 NUL)).
Proof.
  split; [reflexivity|].
  split; [|split; [|split; vm_compute; reflexivity]];
    intros (r & Hr & Hret); vm_compute in Hr; injection Hr as <-; discriminate.
Qed.

(** C4, amended.  A call at [offset = rendered_length] never returns 0
    bytes (no call does); on ILP32 it fails with [-ENODATA].  A later call
    at offset 0 renders anew: whatever interrupt the handler has served in
    between, the call returns the start of the snapshot of the voltages
    current at that moment and leaves that snapshot in the text buffer. *)
Theorem C4_end_of_session dm s writable count timer irq :
  state_ok s -> 1 <= count < 2 ^ 31 -> 78 <= writable ->
  let e := isov_misc_read dm writable count (rendered_length s) s in
  (forall r, snd e = Done r -> rr_ret r <> 0) /\
  (dm = ILP32 -> snd e = Done (ReadResult (- ENODATA) [])) /\
  let s2 := fst (vcf_isr timer irq (fst e)) in
  let rd := isov_misc_read dm writable count 0 s2 in
  exists r, snd rd = Done r /\
    rr_ret r = Z.min count (rendered_length s2) /\
    rr_bytes r = take (Z.to_nat (rr_ret r)) (snapshot s2) /\
    take (Z.to_nat (rendered_length s2)) (txt_buffer (fst rd)) = snapshot s2.
Proof.
  intros Hok Hc Hw e.
  pose proof (rendered_length_bounds s (ok_volt_len s Hok)) as HL.
  split; [intros r; apply read_never_zero|].
  split.
  - intros ->. unfold e.
    rewrite (read_renders ILP32 writable count _ s Hok) by (left; split; [reflexivity|lia]).
    rewrite hand_over_nodata; [reflexivity|].
    rewrite transfer_length_within by lia. lia.
  - intros s2 rd.
    assert (Hok2 : state_ok s2) by (apply state_ok_isr, state_ok_read, Hok).
    pose proof (rendered_length_bounds s2 (ok_volt_len s2 Hok2)) as HL2.
    destruct (read_at dm writable count 0 s2 Hok2 (or_intror eq_refl) ltac:(lia) Hc
                ltac:(lia)) as (r & E & Hret & Hb).
    rewrite Z.sub_0_r in Hret, Hb.
    exists r. unfold rd. rewrite E. cbn [fst snd].
    split; [reflexivity|]. split; [exact Hret|]. split.
    + rewrite Hb, Hret. reflexivity.
    + pose proof (rendered_buffer s2 (length (snapshot s2)) 0 ltac:(lia)) as Hbuf.
      rewrite !drop_0, firstn_all in Hbuf. unfold rendered_length.
      rewrite Nat2Z.id. exact Hbuf.
Qed.

Lemma C4_end_of_session_witness :
  let e := isov_misc_read ILP32 80 100 27 booted in
  state_ok booted /\ rendered_length booted = 27 /\
  snd e = Done (ReadResult (- ENODATA) []) /\
  exists r, snd (isov_misc_read ILP32 80 100 0
                   (fst (vcf_isr (fun _ => 1000) 17 (fst e)))) = Done r /\
    rr_bytes r = chars "V1=7692 V2=0 V3=0 V4=0 V5=0 " ++ [newline; NUL].
Proof.
  destruct (C4_end_of_session ILP32 booted 80 100 (fun _ => 1000) 17) as (_ & H1 & r & H2 & _ & H3 & _);
    [exact state_ok_booted | lia | lia |].
  split; [exact state_ok_booted|]. split; [reflexivity|].
  split; [exact (H1 eq_refl)|].
  exists r. split; [exact H2|].
  vm_compute in H2. injection H2 as <-. reflexivity.
Defined.

(** ** The format of the snapshot *)

Lemma read_whole dm writable count s :
  state_ok s -> 77 <= count < 2 ^ 31 -> 78 <= writable ->
  exists r, isov_misc_read dm writable count 0 s = (rendered s, Done r) /\
    rr_ret r = rendered_length s /\ rr_bytes r = snapshot s.
Proof.
  intros Hok Hc Hw.
  pose proof (rendered_length_bounds s (ok_volt_len s Hok)) as HL.
  destruct (read_at dm writable count 0 s Hok (or_intror eq_refl) ltac:(lia) ltac:(lia)
              ltac:(lia)) as (r & E & Hret & Hb).
  replace (Z.min count (rendered_length s - 0)) with (rendered_length s) in * by lia.
  exists r. split; [exact E|]. split; [exact Hret|].
  rewrite Hb. change (Z.to_nat 0) with 0%nat. rewrite drop_0.
  apply take_whole. unfold rendered_length. lia.
Qed.

(** C7. The text a call at offset 0 renders, returns and leaves in the
    text buffer is [V1=<int> V2=<int> V3=<int> V4=<int> V5=<int> \n] with
    the five voltages in decimal, followed by a null byte.  With all
    coefficients 7692308, an edge on channel 0 with a period of 1000 ticks
    sets its voltage to 7692, and the text then starts with [V1=7692 ]. *)
Theorem C7_snapshot_format dm s t writable count :
  state_ok s -> dedicated s 0 ->
  calib_coeficients s = replicate 5 7692308 ->
  period s 0 t = 1000 ->
  77 <= count < 2 ^ 31 -> 78 <= writable ->
  (exists r, isov_misc_read dm writable count 0 s = (rendered s, Done r) /\
     rr_bytes r = snapshot_text (voltages s) ++ [NUL] /\
     take (length (snapshot_text (voltages s)) + 1) (txt_buffer (rendered s))
     = snapshot_text (voltages s) ++ [NUL]) /\
  let e := on_edge 0 t s in
  snd e = Done IRQ_HANDLED /\ voltages (fst e) !! 0%nat = Some 7692 /\
  exists r, snd (isov_misc_read dm writable count 0 (fst e)) = Done r /\
    rr_bytes r = snapshot_text (voltages (fst e)) ++ [NUL] /\
    take 8 (rr_bytes r) = chars "V1=7692 ".
Proof.
  intros Hok Hded Hcal Hp Hc Hw. split.
  - destruct (read_whole dm writable count s Hok Hc Hw) as (r & E & _ & Hb).
    exists r. split; [exact E|]. split; [exact Hb|].
    pose proof (rendered_buffer s (length (snapshot s)) 0 ltac:(lia)) as Hbuf.
    rewrite !drop_0, firstn_all in Hbuf. unfold snapshot in Hbuf at 1.
    rewrite length_app in Hbuf. exact Hbuf.
  - intros e.
    destruct (dedicated_lookups s 0 Hok Hded) as (last & c & Hl & Hc0 & _ & Hv).
    assert (c = 7692308) as -> by (rewrite Hcal in Hc0; simpl in Hc0; congruence).
    assert (Ee : e = (set_voltages (<[0%nat := 7692]> (voltages s)) (stamped s 0 t t last),
                      Done IRQ_HANDLED)).
    { unfold e. rewrite (on_edge_dedicated s 0 t last _ (ok_irqs s Hok) Hded Hl Hc0 Hv).
      unfold period in Hp. rewrite Hl in Hp. simpl in Hp. rewrite Hp. reflexivity. }
    assert (Hok1 : state_ok (fst e)) by (apply state_ok_isr, Hok).
    destruct (read_whole dm writable count (fst e) Hok1 Hc Hw) as (r & E & _ & Hb).
    rewrite Ee in *. cbn [fst snd] in *.
    split; [reflexivity|]. split; [now apply list_lookup_insert_eq|].
    exists r. rewrite E. split; [reflexivity|]. split; [exact Hb|].
    rewrite Hb. unfold snapshot. simpl voltages.
    destruct (state_ok_voltages s Hok) as (v0 & v1 & v2 & v3 & v4 & -> & _).
    reflexivity.
Qed.

Lemma C7_snapshot_format_witness :
  state_ok booted /\ dedicated booted 0 /\
  calib_coeficients booted = replicate 5 7692308 /\
  period booted 0 1000 = 1000 /\
  exists r, snd (isov_misc_read ILP32 100 100 0 (fst (on_edge 0 1000 booted))) = Done r /\
    rr_bytes r = chars "V1=7692 V2=0 V3=0 V4=0 V5=0 " ++ [newline; NUL].
Proof.
  split; [exact state_ok_booted|]. split; [exact dedicated_booted|].
  split; [reflexivity|]. split; [reflexivity|].
  destruct (C7_snapshot_format ILP32 booted 1000 100 100) as (_ & _ & _ & r & H & Hb & _);
    [exact state_ok_booted | exact dedicated_booted | reflexivity | reflexivity | lia | lia |].
  exists r. split; [exact H|]. rewrite Hb. reflexivity.
Defined.

(** ** The error of a call that hands over nothing *)

(** C9 as stated fails.  The call at the end of the text (ILP32,
    [offset = rendered_length = 27]) has rendered 27 bytes into the text
    buffer, so nothing went wrong with the formatting, and it is this call
    that reports that no data is available: it does not return 0 bytes.
    A call with [count = 0] reports the same. *)
Lemma C9_counterexample_rendered_yet_nodata :
  let rd := isov_misc_read ILP32 64 10 27 init_machine in
  signals_nodata ILP32 64 10 27 init_machine /\
  ~ returns_no_bytes ILP32 64 10 27 init_machine /\
  rendered_length init_machine = 27 /\
  take 27 (txt_buffer (fst rd)) = chars "V1=0 V2=0 V3=0 V4=0 V5=0 " ++ [newline; NUL] /\
  signals_nodata ILP32 64 0 0 init_machine.
Proof.
  assert (H : forall c o, (c, o) = (10, 27) \/ (c, o) = (0, 0) ->
              signals_nodata ILP32 64 c o init_machine).
  { intros c o [[= -> ->]|[= -> ->]];
      exists (ReadResult (- ENODATA) []); split; reflexivity. }
  split; [apply H; now left|].
  split; [intros (r & Hr & Hz); exact (read_never_zero _ _ _ _ _ _ Hr Hz)|].
  split; [reflexivity|]. split; [reflexivity|]. apply H. now right.
Qed.

(** C9, amended.  For a position [0 <= offset <= rendered_length] a call
    fails with [-ENODATA] exactly when the number of bytes to hand over is
    0: when [count = 0], or, on ILP32, when [offset = rendered_length].
    Rendering itself never yields less than 27 bytes, and no call returns
    0, so that the error is the only sign of the end of the text. *)
Theorem C9_nodata dm s writable count offset :
  state_ok s -> 0 <= count < 2 ^ 31 -> 0 <= offset <= rendered_length s ->
  27 <= rendered_length s /\
  (signals_nodata dm writable count offset s <->
   count = 0 \/ (dm = ILP32 /\ offset = rendered_length s)) /\
  ~ returns_no_bytes dm writable count offset s.
Proof.
  intros Hok Hc Ho.
  pose proof (rendered_length_bounds s (ok_volt_len s Hok)) as HL.
  split; [lia|]. split.
  2:{ intros (r & Hr & Hz). exact (read_never_zero _ _ _ _ _ _ Hr Hz). }
  assert (Hcases : (dm = ILP32 \/ offset = 0) \/ (dm = LP64 /\ 0 < offset)).
  { destruct dm; [left; now left|]. destruct (Z.eq_dec offset 0); [left; now right|].
    right. split; [reflexivity|lia]. }
  unfold signals_nodata. split.
  - intros (r & Hr & Hret).
    destruct (Z.eq_dec count 0) as [|Hc0]; [now left|]. right.
    destruct Hcases as [Hren|[-> Hpos]].
    + assert (Hr' : (dm = ILP32 /\ 0 <= offset < 2 ^ 63) \/ offset = 0)
        by (destruct Hren; [left; split; [assumption|lia] | now right]).
      rewrite (read_renders dm writable count offset s Hok Hr') in Hr.
      destruct (Z.eq_dec offset (rendered_length s)) as [Heq|Hne].
      * destruct Hren as [->| ->]; [auto | lia].
      * exfalso.
        destruct (hand_over_result dm writable count offset _ _
                    (Z.min count (rendered_length s - offset)) r
                    ltac:(apply transfer_length_within; lia) ltac:(lia) Hr) as [E|E];
          rewrite E in Hret; unfold EFAULT, ENODATA in Hret; lia.
    + exfalso. rewrite read_stale in Hr by lia.
      destruct (hand_over_result LP64 writable count offset _ _ count r
                  ltac:(apply transfer_length_stale; lia) ltac:(lia) Hr) as [E|E];
        rewrite E in Hret; unfold EFAULT, ENODATA in Hret; lia.
  - intros Hz. exists (ReadResult (- ENODATA) []). split; [|reflexivity].
    destruct Hcases as [Hren|[-> Hpos]].
    + assert (Hr' : (dm = ILP32 /\ 0 <= offset < 2 ^ 63) \/ offset = 0)
        by (destruct Hren; [left; split; [assumption|lia] | now right]).
      rewrite (read_renders dm writable count offset s Hok Hr').
      rewrite hand_over_nodata; [reflexivity|].
      rewrite transfer_length_within by lia. destruct Hz as [->|[_ ->]]; lia.
    + rewrite read_stale by lia.
      rewrite hand_over_nodata; [reflexivity|].
      rewrite transfer_length_stale by lia.
      destruct Hz as [->|[? _]]; [reflexivity|discriminate].
Qed.

Lemma C9_nodata_witness :
  state_ok booted /\ 0 <= 27 <= rendered_length booted /\
  signals_nodata ILP32 64 10 27 booted /\ ~ signals_nodata LP64 64 10 27 booted /\
  signals_nodata LP64 64 0 27 booted.
Proof.
  assert (H27 : 0 <= 27 <= rendered_length booted) by (vm_compute; split; discriminate).
  split; [exact state_ok_booted|]. split; [exact H27|].
  split; [|split].
  - apply (C9_nodata ILP32 booted 64 10 27 state_ok_booted ltac:(lia) H27).
    right. split; reflexivity.
  - intros H.
    apply (C9_nodata LP64 booted 64 10 27 state_ok_booted ltac:(lia) H27) in H.
    destruct H as [H|[H _]]; discriminate.
  - apply (C9_nodata LP64 booted 64 0 27 state_ok_booted ltac:(lia) H27). now left.
Defined.

(** ** Every channel

    The handler serves any channel that has an interrupt of its own; the
    module as it is registers one for channel 0 only. *)

Lemma state_ok_fully_wired : state_ok fully_wired.
Proof.
  constructor; try reflexivity.
  - repeat constructor; lia.
  - unfold int_range. repeat constructor; lia.
Qed.

Lemma dedicated_fully_wired i : (i < 5)%nat -> dedicated fully_wired i.
Proof.
  intros Hi. split; [exact Hi|].
  destruct i as [|[|[|[|[|i]]]]]; try lia;
    intros [|[|[|[|[|j]]]]] Hj; try discriminate; congruence.
Qed.

Example edge_on_channel_3 :
  let r := on_edge 3 250 (fst (on_edge 3 50 fully_wired)) in
  snd r = Done IRQ_HANDLED /\ voltages (fst r) = [0; 0; 0; 38461; 0] /\
  last_pulse_time (fst r) = [0; 0; 0; 250; 0].
Proof. repeat split. Qed.

Example only_channel_0_is_registered :
  vcf_irqs booted = [17; -1; -1; -1; -1] /\
  forall i, (1 <= i < 5)%nat -> ~ dedicated booted i.
Proof.
  split; [reflexivity|]. intros i Hi [_ Hded].
  destruct i as [|[|[|[|[|i]]]]]; try lia.
  - apply (Hded 2%nat); [lia|reflexivity].
  - apply (Hded 1%nat); [lia|reflexivity].
  - apply (Hded 1%nat); [lia|reflexivity].
  - apply (Hded 1%nat); [lia|reflexivity].
Qed.

(** ** Sample runs *)

Example fmt_d_samples :
  map fmt_d [0; 7; 7692; -5; 2147483647; -2147483648]
  = map chars ["0"; "7"; "7692"; "-5"; "2147483647"; "-2147483648"]%string.
Proof. reflexivity. Qed.

Example snapshot_sample :
  snapshot_text [7692; 0; -3; 12; 240384]
  = chars "V1=7692 V2=0 V3=-3 V4=12 V5=240384 " ++ [newline].
Proof. reflexivity. Qed.

Example isov_init_results :
  snd (isov_init 0 17 0 init_machine) = Done 0 /\
  snd (isov_init 1 17 0 init_machine) = Done (- ENODEV) /\
  snd (isov_init 0 (-22) 0 init_machine) = Done (- ENODEV) /\
  snd (isov_init 0 17 (-16) init_machine) = Done (- ENODEV).
Proof. repeat split. Qed.

(** The counter is read twice: when it ticks in between, the period is
    taken from the first reading and the time stamp from the second. *)
Example timer_ticks_between_reads :
  let r := vcf_isr (fun k => 100 + Z.of_nat k) 17 booted in
  snd r = Done IRQ_HANDLED /\ time_diff (fst r) = 100 /\
  last_pulse_time (fst r) = [101; 0; 0; 0; 0] /\ voltages (fst r) = [76923; 0; 0; 0; 0].
Proof. repeat split. Qed.

(** An interrupt no channel is registered for leaves the state as it is. *)
Example foreign_interrupt :
  vcf_isr (fun _ => 1000) 99 booted = (booted, Done IRQ_HANDLED).
Proof. reflexivity. Qed.

(** * Further properties of the code *)

(** ** The interrupt handler *)

Lemma for_each_skip (body : nat -> M unit) l s :
  (forall j, j ∈ l -> body j s = (s, Done tt)) -> for_each l body s = (s, Done tt).
Proof.
  induction l as [|j l IH]; intros H; [reflexivity|]. simpl.
  rewrite (bind_done _ _ s s tt) by (apply H; left).
  apply IH. intros k Hk. apply H. now right.
Qed.

(** X1. An interrupt that no entry of [vcf_irqs] equals is answered with
    [IRQ_HANDLED] all the same, and nothing in the module changes: no
    counter read, no time stamp, no voltage. *)
Theorem X1_foreign_interrupt timer irq s :
  length (vcf_irqs s) = 5%nat -> irq ∉ vcf_irqs s ->
  vcf_isr timer irq s = (s, Done IRQ_HANDLED).
Proof.
  intros Hlen Hnot. unfold vcf_isr.
  rewrite (bind_done _ _ s s tt); [reflexivity|].
  apply for_each_skip. intros j Hj.
  apply elem_of_seq in Hj. unfold ARRAY_SIZE_vcf_irqs in Hj.
  destruct (vcf_irqs s !! j) as [q|] eqn:E.
  - apply (vcf_isr_channel_skip _ _ _ _ q E). intros ->.
    apply Hnot. eapply list_elem_of_lookup_2; eauto.
  - apply lookup_ge_None in E. lia.
Qed.

Lemma X1_foreign_interrupt_witness :
  length (vcf_irqs booted) = 5%nat /\ (99 ∉ vcf_irqs booted) /\
  vcf_isr (fun k => 1000 + Z.of_nat k) 99 booted = (booted, Done IRQ_HANDLED).
Proof.
  assert (H : 99 ∉ vcf_irqs booted).
  { intros H. vm_compute in H. repeat (apply elem_of_cons in H as [H|H]; [discriminate|]).
    inversion H. }
  split; [reflexivity|]. split; [exact H|].
  apply (X1_foreign_interrupt _ 99 booted); [reflexivity | exact H].
Defined.

(** The handler on a channel with an interrupt of its own, for any course
    of the counter. *)
Lemma vcf_isr_dedicated timer s i last c :
  length (vcf_irqs s) = 5%nat ->
  dedicated s i ->
  last_pulse_time s !! i = Some last ->
  calib_coeficients s !! i = Some c ->
  (i < length (voltages s))%nat ->
  let n := timer_reads s in
  let td := to_u32 (to_u32 (timer n) - last) in
  let s1 := stamped s i (timer n) (timer (S n)) last in
  vcf_isr timer (irq_of s i) s =
    if td <? 1000000 then
      if td =? 0 then (s1, Trap DivByZero)
      else (set_voltages (<[i := to_int (to_u32 c / td)]> (voltages s)) s1, Done IRQ_HANDLED)
    else (s1, Done IRQ_HANDLED).
Proof.
  intros Hlen [Hi Hded] Hlast Hc Hv n td s1.
  assert (Hirq : vcf_irqs s !! i = Some (irq_of s i)).
  { unfold irq_of. destruct (vcf_irqs s !! i) eqn:E; [reflexivity|].
    apply lookup_ge_None in E. lia. }
  unfold vcf_isr.
  pose proof (for_each_only (fun s' => vcf_irqs s' = vcf_irqs s)
                (vcf_isr_channel timer (irq_of s i)) i (seq 0 ARRAY_SIZE_vcf_irqs)) as Honly.
  unfold bind.
  rewrite Honly; clear Honly.
  - rewrite (vcf_isr_channel_hit _ _ _ _ last c Hirq Hlast Hc Hv).
    fold n. fold td. fold s1. edge_cases; reflexivity.
  - intros j s' Hj Hne HP.
    apply elem_of_seq in Hj. unfold ARRAY_SIZE_vcf_irqs in Hj.
    destruct (vcf_irqs s !! j) as [q|] eqn:E.
    + apply (vcf_isr_channel_skip _ _ _ _ q); [congruence|].
      intros ->. now apply (Hded j).
    + apply lookup_ge_None in E. lia.
  - intros s' HP. rewrite <- HP.
    apply (fr_irqs _ _ _ (vcf_isr_channel_frame _ _ _ _)).
  - apply NoDup_seq.
  - apply elem_of_seq. unfold ARRAY_SIZE_vcf_irqs. lia.
  - reflexivity.
Qed.

(** X2. The handler reads the counter twice.  On a channel with an
    interrupt of its own the period comes from the first reading and the
    stored time stamp from the second, so the period of the next run is
    counted from the second reading of this run: ticks that pass between
    the two readings are in neither period. *)
Theorem X2_period_between_readings timer s i :
  state_ok s -> dedicated s i ->
  let n := timer_reads s in
  let r1 := vcf_isr timer (irq_of s i) s in
  let r2 := vcf_isr timer (irq_of s i) (fst r1) in
  time_diff (fst r1) = to_u32 (to_u32 (timer n) - default 0 (last_pulse_time s !! i)) /\
  last_pulse_time (fst r1) !! i = Some (to_u32 (timer (S n))) /\
  timer_reads (fst r1) = S (S n) /\
  time_diff (fst r2) = to_u32 (to_u32 (timer (S (S n))) - to_u32 (timer (S n))).
Proof.
  intros Hok Hded n r1 r2.
  destruct (dedicated_lookups s i Hok Hded) as (last & c & Hl & Hc & _ & Hv).
  assert (Hil : (i < length (last_pulse_time s))%nat) by (eapply lookup_lt_Some; eauto).
  pose proof (vcf_isr_dedicated timer s i last c (ok_irqs s Hok) Hded Hl Hc Hv) as E1.
  cbv zeta in E1. fold n in E1. fold r1 in E1.
  assert (H1 : time_diff (fst r1) = to_u32 (to_u32 (timer n) - last) /\
               last_pulse_time (fst r1) !! i = Some (to_u32 (timer (S n))) /\
               timer_reads (fst r1) = S (S n)).
  { rewrite E1. edge_cases; simpl; (split; [reflexivity|]); (split; [|reflexivity]);
      now apply list_lookup_insert_eq. }
  destruct H1 as (Htd & Hl1 & Hn1).
  rewrite Hl. split; [exact Htd|]. split; [exact Hl1|]. split; [exact Hn1|].
  assert (Hok1 : state_ok (fst r1)) by (apply state_ok_isr, Hok).
  assert (Hirqs : vcf_irqs (fst r1) = vcf_irqs s)
    by apply (fr_irqs _ _ _ (vcf_isr_frame timer (irq_of s i) s)).
  assert (Hirq1 : irq_of (fst r1) i = irq_of s i) by (unfold irq_of; now rewrite Hirqs).
  assert (Hded1 : dedicated (fst r1) i).
  { destruct Hded as [Hi Hd]. split; [exact Hi|]. now rewrite Hirq1, Hirqs. }
  destruct (dedicated_lookups (fst r1) i Hok1 Hded1) as (last1 & c1 & Hl1' & Hc1 & _ & Hv1).
  pose proof (vcf_isr_dedicated timer (fst r1) i last1 c1 (ok_irqs _ Hok1) Hded1 Hl1' Hc1 Hv1) as E2.
  cbv zeta in E2. rewrite Hirq1 in E2. fold r2 in E2.
  assert (last1 = to_u32 (timer (S n))) as -> by congruence.
  rewrite Hn1 in E2. rewrite E2. edge_cases; reflexivity.
Qed.

Lemma X2_period_between_readings_witness :
  state_ok booted /\ dedicated booted 0 /\
  let timer := fun k : nat => 100 + 3 * Z.of_nat k in
  let r1 := vcf_isr timer 17 booted in
  let r2 := vcf_isr timer 17 (fst r1) in
  last_pulse_time (fst r1) !! 0%nat = Some 103 /\ time_diff (fst r2) = 3.
Proof.
  split; [exact state_ok_booted|]. split; [exact dedicated_booted|].
  destruct (X2_period_between_readings (fun k : nat => 100 + 3 * Z.of_nat k) booted 0)
    as (_ & H1 & _ & H2); [exact state_ok_booted | exact dedicated_booted |].
  split; [exact H1 | exact H2].
Defined.

Lemma to_u32_add_wraps t k p : to_u32 (to_u32 (t + k * 2 ^ 32 + p) - to_u32 t) = to_u32 p.
Proof.
  unfold to_u32, wrap_unsigned. rewrite <- Zminus_mod.
  replace (t + k * 2 ^ 32 + p - t) with (p + k * 2 ^ 32) by lia.
  apply Z_mod_plus_full.
Qed.

(** X3. The test for a stalled channel sees the gap modulo 2^32 only: an
    edge that comes [k * 2^32 + p] ticks after the one before, with
    [0 < p < 1000000], is not held back as older than a second but taken
    for a period of [p], and sets the voltage to the coefficient divided
    by [p]. *)
Theorem X3_wrapped_gap_is_accepted s i t0 k p c :
  state_ok s -> dedicated s i -> calib_coeficients s !! i = Some c ->
  0 < p < 1000000 ->
  let r2 := on_edge i (t0 + k * 2 ^ 32 + p) (fst (on_edge i t0 s)) in
  snd r2 = Done IRQ_HANDLED /\ time_diff (fst r2) = p /\
  voltages (fst r2) !! i = Some (c ÷ p).
Proof.
  intros Hok Hded Hc Hp r2.
  destruct (second_edge s i Hok Hded t0 (t0 + k * 2 ^ 32 + p)) as (c' & Hc' & Hcr & E).
  cbv zeta in E. rewrite to_u32_add_wraps in E.
  assert (c' = c) as -> by congruence.
  assert (Hv1 : (i < length (voltages (fst (on_edge i t0 s))))%nat).
  { rewrite (fr_volt_len _ _ _ (on_edge_frame i t0 s)).
    destruct Hded. rewrite (ok_volt_len s Hok). lia. }
  unfold r2. rewrite E, (to_u32_id p) by lia.
  destruct (Z.ltb_spec p 1000000); [|lia].
  destruct (Z.eqb_spec p 0); [lia|]. cbn [fst snd].
  split; [reflexivity|]. split.
  - simpl. rewrite to_u32_add_wraps. apply to_u32_id. lia.
  - simpl voltages. rewrite list_lookup_insert_eq by exact Hv1. f_equal.
    rewrite (to_u32_id c) by lia.
    rewrite Z.quot_div_nonneg by lia.
    apply to_int_id. unfold int_range.
    assert (0 <= c / p <= c); [|lia].
    split; [apply Z.div_pos; lia|]. apply Z.div_le_upper_bound; nia.
Qed.

Lemma X3_wrapped_gap_is_accepted_witness :
  state_ok booted /\ dedicated booted 0 /\ 0 < 1000 < 1000000 /\
  let r2 := on_edge 0 (5 + 1 * 2 ^ 32 + 1000) (fst (on_edge 0 5 booted)) in
  snd r2 = Done IRQ_HANDLED /\ time_diff (fst r2) = 1000 /\
  voltages (fst r2) !! 0%nat = Some 7692.
Proof.
  split; [exact state_ok_booted|]. split; [exact dedicated_booted|]. split; [lia|].
  apply (X3_wrapped_gap_is_accepted booted 0 5 1 1000 7692308);
    [exact state_ok_booted | exact dedicated_booted | reflexivity | lia].
Defined.

(** ** What every reachable state looks like *)

Lemma reach_inv_init : reach_inv init_machine.
Proof.
  constructor; try reflexivity.
  - now exists (-1).
  - repeat constructor; lia.
  - repeat constructor; now left.
Qed.

Lemma reach_inv_ok s : reach_inv s -> state_ok s.
Proof.
  intros [Hc [q Hq] Hll Hl Hvl Hv Hb]. constructor; auto.
  - now rewrite Hq.
  - now rewrite Hc.
  - rewrite Hc. repeat constructor; lia.
  - eapply Forall_impl; [exact Hv|]. unfold int_range. intros v [->|Hr]; lia.
Qed.

Lemma reach_inv_channel timer irq i s :
  reach_inv s -> reach_inv (fst (vcf_isr_channel timer irq i s)).
Proof.
  intros Hinv. unfold vcf_isr_channel, bind, load.
  destruct (vcf_irqs s !! i) as [q|] eqn:Hq; [|exact Hinv].
  destruct (Z.eqb_spec irq q) as [<-|Hne]; [|exact Hinv].
  unfold ioread32 at 1. cbn [vcf_irqs last_pulse_time set_timer_reads timer_reads].
  destruct (last_pulse_time s !! i) as [last|] eqn:Hl.
  2:{ destruct Hinv. constructor; simpl; auto. }
  unfold modify, ioread32, store, get.
  cbn [vcf_irqs last_pulse_time set_timer_reads set_time_diff timer_reads time_diff].
  destruct (decide _) as [Hlt|Hge].
  2:{ destruct Hinv. constructor; simpl; auto. }
  cbn [time_diff set_last_pulse_time calib_coeficients voltages].
  set (s1 := set_last_pulse_time _ _).
  set (td := to_u32 (to_u32 (timer (timer_reads s)) - last)).
  assert (H1 : reach_inv s1).
  { destruct Hinv. constructor; simpl; auto.
    - now rewrite length_insert.
    - apply Forall_insert; [assumption | apply to_u32_range]. }
  pose proof (to_u32_range (to_u32 (timer (timer_reads s)) - last)) as Htd. fold td in Htd.
  change (time_diff (set_timer_reads (S (S (timer_reads s)))
            (set_time_diff td (set_timer_reads (S (timer_reads s)) s)))) with td.
  destruct (Z.ltb_spec td 1000000) as [Hlt1|]; [|exact H1].
  destruct (calib_coeficients s1 !! i) as [c|] eqn:Hc; [|exact H1].
  unfold udiv. destruct (Z.eqb_spec td 0) as [|Hnz]; [exact H1|].
  unfold ret. destruct (decide _); [|exact H1]. cbn [fst].
  assert (c = 7692308) as ->.
  { change (calib_coeficients s1) with (calib_coeficients s) in Hc.
    rewrite (ri_calib s Hinv) in Hc. apply lookup_replicate in Hc as [-> _]. reflexivity. }
  destruct H1. constructor; simpl; auto.
  - now rewrite length_insert.
  - apply Forall_insert; [assumption|]. right.
    rewrite (to_u32_id 7692308) by lia.
    assert (7 <= 7692308 / td <= 7692308).
    { split; [apply Z.div_le_lower_bound; lia | apply Z.div_le_upper_bound; lia]. }
    rewrite to_int_id by (unfold int_range; lia). assumption.
Qed.

Lemma reach_inv_isr timer irq s : reach_inv s -> reach_inv (fst (vcf_isr timer irq s)).
Proof.
  unfold vcf_isr.
  pose proof (for_each_rel (fun a b => reach_inv a -> reach_inv b)
                (vcf_isr_channel timer irq) (fun _ H => H)
                (fun _ _ _ H1 H2 H => H2 (H1 H))
                (reach_inv_channel timer irq) (seq 0 ARRAY_SIZE_vcf_irqs) s) as H.
  unfold bind. destruct (for_each _ _ s) as [s' [[]|f]]; exact H.
Qed.

Lemma reach_inv_read dm writable count offset s :
  reach_inv s -> reach_inv (fst (isov_misc_read dm writable count offset s)).
Proof.
  intros Hinv.
  pose proof (state_ok_read dm writable count offset s (reach_inv_ok s Hinv)) as Hok.
  destruct (isov_misc_read_frame dm writable count offset s) as (Hi & Hl & Hc & Hv).
  destruct Hinv. constructor; try congruence.
  - now rewrite Hi.
  - exact (ok_buf _ Hok).
Qed.

Lemma reach_inv_isov_init gpio_rc irq0 request_rc s :
  reach_inv s -> reach_inv (fst (isov_init gpio_rc irq0 request_rc s)).
Proof.
  intros Hinv. unfold isov_init. destruct (negb _); [exact Hinv|].
  unfold bind, store. destruct (decide _); [|exact Hinv].
  assert (H' : reach_inv (set_vcf_irqs (<[0%nat := irq0]> (vcf_irqs s)) s)).
  { destruct Hinv as [? [q Hq] ? ? ? ? ?]. constructor; simpl; auto.
    rewrite Hq. now exists irq0. }
  destruct (irq0 <? 0); [exact H'|]. destruct (negb _); exact H'.
Qed.

Lemma reachable_inv s : reachable s -> reach_inv s.
Proof.
  induction 1 as [|s g q rq s' r _ IH E|s tm irq s' r _ IH E
                  |s dm w c o s' r _ IH E|s b c o s' r _ IH E].
  - exact reach_inv_init.
  - pose proof (reach_inv_isov_init g q rq s IH) as H. now rewrite E in H.
  - pose proof (reach_inv_isr tm irq s IH) as H. now rewrite E in H.
  - pose proof (reach_inv_read dm w c o s IH) as H. now rewrite E in H.
  - injection E as <- _. exact IH.
Qed.

(** A number below [10^k] has at most [k] digits. *)
Lemma put_dec_digits fuel n acc (k : nat) :
  (1 <= k)%nat -> 0 <= n < 10 ^ Z.of_nat k ->
  (length (put_dec fuel n acc) <= k + length acc)%nat.
Proof.
  revert n acc k. induction fuel as [|fuel IH]; intros n acc k Hk Hn; simpl; [lia|].
  destruct (Z.eqb_spec (n / 10) 0) as [E|E]; simpl; [lia|].
  destruct k as [|[|k]]; [lia| |].
  - exfalso. apply E. apply Z.div_small. simpl in Hn. lia.
  - specialize (IH (n / 10) (digit (n mod 10) :: acc) (S k) ltac:(lia)).
    simpl length in IH.
    assert (0 <= n / 10 < 10 ^ Z.of_nat (S k)); [|lia].
    rewrite (Nat2Z.inj_succ (S k)), Z.pow_succ_r in Hn by lia.
    split; [apply Z.div_pos; lia | apply Z.div_lt_upper_bound; lia].
Qed.

Lemma fmt_d_length_small v : v = 0 \/ 7 <= v <= 7692308 -> (length (fmt_d v) <= 7)%nat.
Proof.
  intros Hv. unfold fmt_d. destruct (Z.ltb_spec v 0); [lia|].
  assert (Hr : 0 <= v < 10 ^ Z.of_nat 7) by (simpl Z.of_nat; lia).
  pose proof (put_dec_digits 10 v [] 7 ltac:(lia) Hr) as Hd.
  change (length (@nil ascii)) with 0%nat in Hd. lia.
Qed.

(** X4. In every state the module reaches, the calibration coefficients
    are the 7692308 of the source, every voltage is either 0 (no period
    accepted yet) or between 7 and 7692308, and the snapshot with its null
    byte is between 27 and 57 bytes long: the 256 bytes of the text buffer
    are never needed. *)
Theorem X4_reachable_values s :
  reachable s ->
  calib_coeficients s = replicate 5 7692308 /\
  Forall (fun v => v = 0 \/ 7 <= v <= 7692308) (voltages s) /\
  27 <= rendered_length s <= 57.
Proof.
  intros Hr. pose proof (reachable_inv s Hr) as Hinv.
  split; [exact (ri_calib s Hinv)|]. split; [exact (ri_volt s Hinv)|].
  pose proof (rendered_length_bounds s (ri_volt_len s Hinv)) as HL.
  split; [lia|].
  pose proof (ri_volt_len s Hinv) as Hlen. pose proof (ri_volt s Hinv) as Hv.
  unfold rendered_length, snapshot.
  destruct (voltages s) as [|v1 [|v2 [|v3 [|v4 [|v5 [|]]]]]]; try discriminate.
  repeat (apply Forall_cons in Hv as [? Hv]).
  unfold snapshot_text, chars. cbn -[fmt_d].
  repeat (rewrite length_app; cbn -[fmt_d]).
  pose proof (fmt_d_length_small v1). pose proof (fmt_d_length_small v2).
  pose proof (fmt_d_length_small v3). pose proof (fmt_d_length_small v4).
  pose proof (fmt_d_length_small v5). lia.
Qed.

Lemma reachable_after_edge : reachable (fst (on_edge 0 1000 booted)).
Proof.
  apply (reach_isr booted (fun _ => 1000) 17 _ IRQ_HANDLED reachable_booted). reflexivity.
Qed.

Lemma X4_reachable_values_witness :
  reachable (fst (on_edge 0 1000 booted)) /\
  voltages (fst (on_edge 0 1000 booted)) = [7692; 0; 0; 0; 0] /\
  27 <= rendered_length (fst (on_edge 0 1000 booted)) <= 57.
Proof.
  split; [exact reachable_after_edge|]. split; [reflexivity|].
  apply (X4_reachable_values _ reachable_after_edge).
Defined.

(** X5. [isov_init] assigns the first entry of [vcf_irqs] and no other, so
    in every reachable state the channels 1 to 4 carry the initial -1:
    none of them has an interrupt of its own, and only channel 0 can be
    served by an interrupt the kernel delivers. *)
Theorem X5_only_first_channel_wired s i :
  reachable s -> (1 <= i < 5)%nat ->
  vcf_irqs s !! i = Some (-1) /\ ~ dedicated s i.
Proof.
  intros Hr Hi. destruct (ri_irqs s (reachable_inv s Hr)) as [q Hq].
  assert (Hl : vcf_irqs s !! i = Some (-1)).
  { rewrite Hq. destruct i as [|[|[|[|[|i]]]]]; try lia; reflexivity. }
  split; [exact Hl|]. intros [_ Hded].
  assert (Hirq : irq_of s i = -1) by (unfold irq_of; now rewrite Hl).
  rewrite Hirq in Hded.
  destruct (decide (i = 1%nat)) as [->|Hne].
  - apply (Hded 2%nat); [lia|]. now rewrite Hq.
  - apply (Hded 1%nat); [lia|]. now rewrite Hq.
Qed.

Lemma X5_only_first_channel_wired_witness :
  reachable (fst (on_edge 0 1000 booted)) /\ (1 <= 3 < 5)%nat /\
  vcf_irqs (fst (on_edge 0 1000 booted)) !! 3%nat = Some (-1) /\
  ~ dedicated (fst (on_edge 0 1000 booted)) 3.
Proof.
  split; [exact reachable_after_edge|]. split; [lia|].
  apply (X5_only_first_channel_wired _ 3 reachable_after_edge). lia.
Defined.

(** ** Reading and the handler side by side *)

(** Unfolds the field updates and projections of a state given by its
    fields. *)
Ltac fields :=
  cbv beta iota delta
    [set_txt_buffer set_timer_reads set_time_diff set_last_pulse_time set_voltages
     set_vcf_irqs vcf_irqs last_pulse_time calib_coeficients voltages time_diff
     txt_buffer timer_reads fst snd].

Lemma vcf_isr_channel_buf timer irq i b s :
  vcf_isr_channel timer irq i (set_txt_buffer b s)
  = (set_txt_buffer b (fst (vcf_isr_channel timer irq i s)),
     snd (vcf_isr_channel timer irq i s)).
Proof.
  unfold vcf_isr_channel, bind, load, ioread32, modify, store, get, udiv, ret, raise.
  destruct s as [irqs last calib volt td buf n]. fields.
  destruct (irqs !! i) as [q|]; [|reflexivity].
  destruct (irq =? q); [|reflexivity].
  destruct (last !! i) as [l0|]; [|reflexivity]. fields.
  destruct (decide (i < length last)%nat); [|reflexivity]. fields.
  destruct (_ <? 1000000); [|reflexivity].
  destruct (calib !! i) as [c|]; [|reflexivity].
  destruct (_ =? 0); [reflexivity|]. fields.
  destruct (decide (i < length volt)%nat); reflexivity.
Qed.

Lemma for_each_buf timer irq b l s :
  for_each l (vcf_isr_channel timer irq) (set_txt_buffer b s)
  = (set_txt_buffer b (fst (for_each l (vcf_isr_channel timer irq) s)),
     snd (for_each l (vcf_isr_channel timer irq) s)).
Proof.
  revert s. induction l as [|i l IH]; intros s; [reflexivity|]. simpl. unfold bind.
  rewrite vcf_isr_channel_buf.
  destruct (vcf_isr_channel timer irq i s) as [s' [[]|f]]; cbn [fst snd]; [apply IH | reflexivity].
Qed.

Lemma vcf_isr_buf timer irq b s :
  vcf_isr timer irq (set_txt_buffer b s)
  = (set_txt_buffer b (fst (vcf_isr timer irq s)), snd (vcf_isr timer irq s)).
Proof.
  unfold vcf_isr, bind. rewrite for_each_buf.
  destruct (for_each _ _ s) as [s' [[]|f]]; reflexivity.
Qed.

Lemma set_txt_buffer_same s : set_txt_buffer (txt_buffer s) s = s.
Proof. now destruct s. Qed.

Lemma isov_misc_read_buf dm writable count offset s :
  exists b, fst (isov_misc_read dm writable count offset s) = set_txt_buffer b s.
Proof.
  unfold isov_misc_read, bind. destruct (_ <=? 0).
  - unfold render_voltages, bind, load, get, modify, ret.
    destruct (voltages s !! 0%nat); [|exists (txt_buffer s); now rewrite set_txt_buffer_same].
    destruct (voltages s !! 1%nat); [|exists (txt_buffer s); now rewrite set_txt_buffer_same].
    destruct (voltages s !! 2%nat); [|exists (txt_buffer s); now rewrite set_txt_buffer_same].
    destruct (voltages s !! 3%nat); [|exists (txt_buffer s); now rewrite set_txt_buffer_same].
    destruct (voltages s !! 4%nat); [|exists (txt_buffer s); now rewrite set_txt_buffer_same].
    rewrite hand_over_state. eexists. reflexivity.
  - unfold ret. rewrite hand_over_state. exists (txt_buffer s).
    now rewrite set_txt_buffer_same.
Qed.

(** X6. Reading and interrupt handling do not get into each other's way:
    a call of [read] before an interrupt changes neither how the handler
    ends nor the time stamps, voltages and period it leaves, and the
    handler leaves the text buffer as the reader left it. *)
Theorem X6_read_and_handler_apart dm writable count offset timer irq s :
  let s_r := fst (isov_misc_read dm writable count offset s) in
  let a := vcf_isr timer irq s_r in
  let b := vcf_isr timer irq s in
  snd a = snd b /\
  last_pulse_time (fst a) = last_pulse_time (fst b) /\
  voltages (fst a) = voltages (fst b) /\
  time_diff (fst a) = time_diff (fst b) /\
  txt_buffer (fst a) = txt_buffer s_r.
Proof.
  intros s_r a b.
  destruct (isov_misc_read_buf dm writable count offset s) as [buf Hb].
  fold s_r in Hb. unfold a. rewrite Hb, vcf_isr_buf. fold b. cbn [fst snd].
  repeat split; reflexivity.
Qed.

(** ** Reading again, reading past the end *)

Lemma read_cases dm offset :
  0 <= offset < 2 ^ 63 ->
  ((dm = ILP32 /\ 0 <= offset < 2 ^ 63) \/ offset = 0) \/ (dm = LP64 /\ 0 < offset < 2 ^ 63).
Proof.
  intros Ho. destruct dm; [left; left; auto|].
  destruct (Z.eq_dec offset 0); [left; now right | right; split; [reflexivity|lia]].
Qed.

(** X7. A call does not use up what it returns: the function never moves
    [*offset] and keeps no length between calls, so the same call made
    again, in the state the first leaves, ends in the same state with the
    same return value and the same bytes.  There is no call after which
    the text is at its end. *)
Theorem X7_read_again dm writable count offset s :
  state_ok s -> 0 <= offset < 2 ^ 63 ->
  isov_misc_read dm writable count offset (fst (isov_misc_read dm writable count offset s))
  = isov_misc_read dm writable count offset s.
Proof.
  intros Hok Ho. destruct (read_cases dm offset Ho) as [Hr|[-> Hpos]].
  - rewrite (read_renders dm writable count offset s Hok Hr), hand_over_state.
    rewrite (read_renders dm writable count offset _ (state_ok_rendered s Hok) Hr).
    now rewrite (rendered_idem s Hok).
  - rewrite (read_stale writable count offset s Hpos), hand_over_state.
    apply read_stale. exact Hpos.
Qed.

Lemma X7_read_again_witness :
  state_ok booted /\ 0 <= 0 < 2 ^ 63 /\
  let r := isov_misc_read ILP32 64 27 0 booted in
  exists u, snd r = Done (ReadResult 27 u) /\
            snd (isov_misc_read ILP32 64 27 0 (fst r)) = Done (ReadResult 27 u).
Proof.
  split; [exact state_ok_booted|]. split; [lia|].
  cbv zeta. rewrite (X7_read_again ILP32 64 27 0 booted state_ok_booted) by lia.
  eexists. split; reflexivity.
Defined.



(** X9. On LP64 a call at an offset past 0 does not render.  After a call
    at offset 0 and any interrupt, a call for [count] bytes at offset [k]
    inside the text returns the bytes of the text rendered before the
    interrupt, whatever the voltages are by now: a reader that comes back
    for the rest gets the old snapshot. *)
Theorem X9_stale_rest s writable0 count0 timer irq writable count k :
  state_ok s -> 0 < k -> 1 <= count < 2 ^ 31 ->
  k + count <= rendered_length s -> count + 1 <= writable ->
  let s1 := fst (isov_misc_read LP64 writable0 count0 0 s) in
  let s2 := fst (vcf_isr timer irq s1) in
  exists r, isov_misc_read LP64 writable count k s2 = (s2, Done r) /\
    rr_ret r = count /\
    rr_bytes r = take (Z.to_nat count) (drop (Z.to_nat k) (snapshot s)).
Proof.
  intros Hok Hk Hc Hin Hw s1 s2.
  pose proof (rendered_length_bounds s (ok_volt_len s Hok)) as HL.
  assert (Hs1 : s1 = rendered s).
  { unfold s1. rewrite (read_renders LP64 writable0 count0 0 s Hok) by now right.
    apply hand_over_state. }
  assert (Hbuf : txt_buffer s2 = txt_buffer (rendered s)).
  { unfold s2. rewrite (fr_buf _ _ _ (vcf_isr_frame timer irq s1)). now rewrite Hs1. }
  destruct (read_at_stale writable count k s2) as (r & E & Hret & Hb); try lia.
  { rewrite Hbuf, (ok_buf _ (state_ok_rendered s Hok)). lia. }
  exists r. split; [exact E|]. split; [exact Hret|].
  rewrite Hb, Hbuf. apply rendered_buffer. unfold rendered_length in Hin. lia.
Qed.

Lemma X9_stale_rest_witness :
  state_ok booted /\ 3 + 2 <= rendered_length booted /\
  let s2 := fst (vcf_isr (fun _ => 1000) 17 (fst (isov_misc_read LP64 64 3 0 booted))) in
  voltages s2 = [7692; 0; 0; 0; 0] /\
  exists r, isov_misc_read LP64 64 2 3 s2 = (s2, Done r) /\ rr_bytes r = chars "0 ".
Proof.
  split; [exact state_ok_booted|]. split; [vm_compute; discriminate|].
  split; [reflexivity|].
  destruct (X9_stale_rest booted 64 3 (fun _ => 1000) 17 64 2 3) as (r & E & _ & Hb);
    [exact state_ok_booted | lia | lia | vm_compute; discriminate | lia |].
  exists r. split; [exact E | exact Hb].
Defined.

Lemma hand_over_efault dm writable count offset txt_len s len :
  transfer_length dm txt_len offset count = len ->
  0 < len < 2 ^ 31 -> 0 <= offset ->
  offset + len + 1 <= Z.of_nat (length (txt_buffer s)) ->
  0 <= writable <= len ->
  hand_over dm writable count offset txt_len s
  = (s, Done (ReadResult (- EFAULT)
        (take (Z.to_nat writable) (drop (Z.to_nat offset) (txt_buffer s))))).
Proof.
  intros Hlen Hl Ho Hb Hw. unfold hand_over. rewrite Hlen.
  destruct (Z.leb_spec len 0); [lia|].
  unfold bind, get. rewrite (to_size_t_id dm (len + 1)) by lia.
  destruct (Z.ltb_spec offset 0); [lia|].
  destruct (Z.ltb_spec (Z.of_nat (length (txt_buffer s))) (offset + (len + 1))); [lia|].
  cbn [orb]. unfold copy_to_user. cbn [fst snd].
  replace (Z.min (len + 1) (Z.max 0 writable)) with writable by lia.
  destruct (Z.eqb_spec (len + 1 - writable) 0); [lia|]. reflexivity.
Qed.

(** X10. The module hands [copy_to_user] one byte more than it returns.
    Where a call returns [len] bytes the caller's buffer has been written
    with [len + 1]; and a caller that can take [len] bytes at most, for
    instance exactly the [count] it asked for, gets [-EFAULT]. *)
Theorem X10_one_byte_more dm s writable count offset :
  state_ok s -> dm = ILP32 \/ offset = 0 ->
  0 <= offset < rendered_length s -> 1 <= count < 2 ^ 31 -> 0 <= writable ->
  let len := Z.min count (rendered_length s - offset) in
  let r := snd (isov_misc_read dm writable count offset s) in
  (len + 1 <= writable ->
   exists u, r = Done (ReadResult len u) /\ Z.of_nat (length u) = len + 1) /\
  (writable <= len -> exists u, r = Done (ReadResult (- EFAULT) u)).
Proof.
  intros Hok Hdm Ho Hc Hw0 len r.
  pose proof (rendered_length_bounds s (ok_volt_len s Hok)) as HL.
  assert (Hr : (dm = ILP32 /\ 0 <= offset < 2 ^ 63) \/ offset = 0)
    by (destruct Hdm; [left; split; [assumption|lia] | now right]).
  assert (Hlen : transfer_length dm (rendered_length s) offset count = len)
    by (apply transfer_length_within; lia).
  assert (Hbuf : Z.of_nat (length (txt_buffer (rendered s))) = 256)
    by now rewrite (ok_buf _ (state_ok_rendered s Hok)).
  unfold r. rewrite (read_renders dm writable count offset s Hok Hr). split.
  - intros Hw.
    rewrite (hand_over_copy dm writable count offset _ _ len Hlen) by lia.
    eexists. split; [reflexivity|]. rewrite length_take, length_drop. lia.
  - intros Hw.
    rewrite (hand_over_efault dm writable count offset _ _ len Hlen) by lia.
    eexists. reflexivity.
Qed.

Lemma X10_one_byte_more_witness :
  state_ok booted /\ 0 <= 0 < rendered_length booted /\
  (exists u, snd (isov_misc_read ILP32 11 10 0 booted) = Done (ReadResult 10 u) /\
             Z.of_nat (length u) = 11) /\
  (exists u, snd (isov_misc_read ILP32 10 10 0 booted) = Done (ReadResult (- EFAULT) u)).
Proof.
  assert (H0 : 0 <= 0 < rendered_length booted) by (vm_compute; split; [discriminate|reflexivity]).
  split; [exact state_ok_booted|]. split; [exact H0|]. split.
  - destruct (X10_one_byte_more ILP32 booted 11 10 0 state_ok_booted) as [H _];
      [now left | exact H0 | lia | lia |].
    apply H. vm_compute. discriminate.
  - destruct (X10_one_byte_more ILP32 booted 10 10 0 state_ok_booted) as [_ H];
      [now left | exact H0 | lia | lia |].
    apply H. vm_compute. discriminate.
Defined.

(** X11. Rendering overwrites the text and its null byte and nothing
    behind them.  A call at offset 0 for the whole text therefore hands
    the caller, as the one byte more, the byte that stood behind the
    terminator before: what is left there of an earlier, longer text. *)
Theorem X11_byte_behind_terminator dm s writable count :
  state_ok s -> rendered_length s <= count < 2 ^ 31 -> rendered_length s + 1 <= writable ->
  let L := Z.to_nat (rendered_length s) in
  let rd := isov_misc_read dm writable count 0 s in
  drop L (txt_buffer (fst rd)) = drop L (txt_buffer s) /\
  exists r, snd rd = Done r /\ rr_ret r = rendered_length s /\
    rr_user r = snapshot s ++ take 1 (drop L (txt_buffer s)).
Proof.
  intros Hok Hc Hw L rd.
  pose proof (rendered_length_bounds s (ok_volt_len s Hok)) as HL.
  assert (HLs : L = length (snapshot s)) by (unfold L, rendered_length; lia).
  assert (Hlen : transfer_length dm (rendered_length s) 0 count = rendered_length s).
  { rewrite transfer_length_within by lia. lia. }
  unfold rd. rewrite (read_renders dm writable count 0 s Hok) by now right.
  rewrite (hand_over_copy dm writable count 0 _ _ _ Hlen); try lia.
  2:{ rewrite (ok_buf _ (state_ok_rendered s Hok)). lia. }
  cbn [fst snd]. split.
  - simpl txt_buffer. rewrite HLs. now rewrite drop_app_length.
  - eexists. split; [reflexivity|]. split; [reflexivity|]. cbn [rr_user].
    change (Z.to_nat 0) with 0%nat. rewrite drop_0. simpl txt_buffer.
    replace (Z.to_nat (rendered_length s + 1)) with (length (snapshot s) + 1)%nat
      by (unfold rendered_length; lia).
    rewrite take_app_add. now rewrite HLs.
Qed.

Lemma X11_byte_behind_terminator_witness :
  let s0 := fst (on_edge 0 1000 booted) in
  let s1 := fst (isov_misc_read ILP32 64 64 0 s0) in
  let s2 := fst (on_edge 0 101000 s1) in
  state_ok s2 /\ voltages s2 = [76; 0; 0; 0; 0] /\ rendered_length s2 = 28 /\
  exists r, snd (isov_misc_read ILP32 64 64 0 s2) = Done r /\
    rr_user r = chars "V1=76 V2=0 V3=0 V4=0 V5=0 " ++ [newline; NUL; newline].
Proof.
  intros s0 s1 s2.
  assert (Hok : state_ok s2).
  { unfold s2, s1, s0. apply state_ok_isr, state_ok_read, state_ok_isr, state_ok_booted. }
  split; [exact Hok|]. split; [reflexivity|]. split; [reflexivity|].
  destruct (X11_byte_behind_terminator ILP32 s2 64 64 Hok) as (_ & r & E & _ & Hu);
    [vm_compute; split; [discriminate|reflexivity] | vm_compute; discriminate |].
  exists r. split; [exact E|]. rewrite Hu. reflexivity.
Defined.

(** ** Loading and unloading *)

Lemma state_ok_table s :
  state_ok s -> exists q0 q1 q2 q3 q4, vcf_irqs s = [q0; q1; q2; q3; q4].
Proof.
  intros Hok. pose proof (ok_irqs s Hok) as H.
  destruct (vcf_irqs s) as [|q0 [|q1 [|q2 [|q3 [|q4 [|]]]]]]; try discriminate.
  now exists q0, q1, q2, q3, q4.
Qed.

(** The four ways [isov_init] ends. *)
Lemma isov_init_run a k q0 q1 q2 q3 q4 :
  vcf_irqs (Lifecycle.mem k) = [q0; q1; q2; q3; q4] ->
  let called := [Lifecycle.misc_register (Lifecycle.misc_rc a);
                 Lifecycle.gpio_request_array (Lifecycle.gpio_rc a)] in
  let irq := Lifecycle.irq_rc a in
  let m1 := set_vcf_irqs [irq; q1; q2; q3; q4] (Lifecycle.mem k) in
  let probed := called ++ [Lifecycle.gpio_to_irq 2 irq] in
  let asked := probed ++ [Lifecycle.ioremap 0x3F003004 8 (Lifecycle.map_ptr a);
                          Lifecycle.request_irq irq "isov#vcf1" (Lifecycle.request_rc a)] in
  Lifecycle.isov_init a k =
    if negb (Lifecycle.gpio_rc a =? 0) then
      (Lifecycle.Module_ (Lifecycle.mem k) (Lifecycle.timer k)
         (Lifecycle.log k ++ called ++ [Lifecycle.gpio_free_array]), Done (- ENODEV))
    else if irq <? 0 then
      (Lifecycle.Module_ m1 (Lifecycle.timer k)
         (Lifecycle.log k ++ probed ++ [Lifecycle.gpio_free_array]), Done (- ENODEV))
    else if negb (Lifecycle.request_rc a =? 0) then
      (Lifecycle.Module_ m1 (Lifecycle.map_ptr a)
         (Lifecycle.log k ++ asked ++
            map Lifecycle.free_irq [irq; q1; q2; q3; q4] ++
            [Lifecycle.gpio_free_array; Lifecycle.iounmap (Lifecycle.map_ptr a)]),
       Done (- ENODEV))
    else
      (Lifecycle.Module_ m1 (Lifecycle.map_ptr a)
         (Lifecycle.log k ++ asked ++ [Lifecycle.printk "ISOV: GPIO settings ok."]), Done 0).
Proof.
  intros Hq called irq m1 probed asked.
  unfold Lifecycle.isov_init, Lifecycle.lbind, Lifecycle.kcall, Lifecycle.lret.
  cbn [Lifecycle.mem Lifecycle.timer Lifecycle.log].
  destruct (negb (Lifecycle.gpio_rc a =? 0)).
  { cbn [Lifecycle.mem Lifecycle.timer Lifecycle.log]. now rewrite <- !app_assoc. }
  unfold Lifecycle.lift. cbn [Lifecycle.mem Lifecycle.timer Lifecycle.log].
  rewrite store_in by (rewrite Hq; simpl; lia). rewrite Hq. fold irq.
  change (<[0%nat:=irq]> [q0; q1; q2; q3; q4]) with [irq; q1; q2; q3; q4].
  fold m1. cbn [fst snd Lifecycle.mem Lifecycle.timer Lifecycle.log].
  rewrite (load_some vcf_irqs 0 m1 irq) by reflexivity.
  cbn [fst snd Lifecycle.mem Lifecycle.timer Lifecycle.log].
  destruct (irq <? 0).
  { cbn. now rewrite <- !app_assoc. }
  unfold Lifecycle.set_timer, Lifecycle.get_timer.
  cbn [fst snd Lifecycle.mem Lifecycle.timer Lifecycle.log].
  rewrite (load_some vcf_irqs 0 m1 irq) by reflexivity.
  cbn [fst snd Lifecycle.mem Lifecycle.timer Lifecycle.log].
  destruct (negb (Lifecycle.request_rc a =? 0)).
  - cbn. now rewrite <- !app_assoc.
  - cbn. now rewrite <- !app_assoc.
Qed.

Lemma isov_exit_run k q0 q1 q2 q3 q4 :
  vcf_irqs (Lifecycle.mem k) = [q0; q1; q2; q3; q4] ->
  Lifecycle.isov_exit k =
    (Lifecycle.Module_ (Lifecycle.mem k) (Lifecycle.timer k)
       (Lifecycle.log k ++ [Lifecycle.printk "ISOV: GPIO unregistering."] ++
          (if negb (Lifecycle.timer k =? 0) then [Lifecycle.iounmap (Lifecycle.timer k)]
           else []) ++
          map Lifecycle.free_irq [q0; q1; q2; q3; q4] ++
          [Lifecycle.gpio_free_array; Lifecycle.misc_deregister]), Done tt).
Proof.
  intros Hq. destruct k as [[irqs last calib volt td buf n] t lg].
  cbn [Lifecycle.mem Lifecycle.timer Lifecycle.log vcf_irqs] in *. subst irqs.
  unfold Lifecycle.isov_exit, Lifecycle.lbind, Lifecycle.kcall, Lifecycle.lret,
    Lifecycle.get_timer.
  cbn [Lifecycle.mem Lifecycle.timer Lifecycle.log].
  destruct (negb (t =? 0)); cbn; now rewrite <- !app_assoc.
Qed.

(** The data [isov_init] leaves and the value it returns are those of the
    function with the same name that works on the data alone. *)
Lemma isov_init_data a k :
  state_ok (Lifecycle.mem k) ->
  (Lifecycle.mem (fst (Lifecycle.isov_init a k)), snd (Lifecycle.isov_init a k))
  = isov_init (Lifecycle.gpio_rc a) (Lifecycle.irq_rc a) (Lifecycle.request_rc a)
      (Lifecycle.mem k).
Proof.
  intros Hok. destruct (state_ok_table _ Hok) as (q0 & q1 & q2 & q3 & q4 & Hq).
  rewrite (isov_init_run a k q0 q1 q2 q3 q4 Hq). cbv zeta.
  unfold isov_init. destruct (negb (Lifecycle.gpio_rc a =? 0)); [reflexivity|].
  unfold bind. rewrite store_in by (rewrite Hq; simpl; lia). rewrite Hq.
  change (<[0%nat:=Lifecycle.irq_rc a]> [q0; q1; q2; q3; q4])
    with [Lifecycle.irq_rc a; q1; q2; q3; q4].
  destruct (Lifecycle.irq_rc a <? 0); [reflexivity|].
  destruct (negb (Lifecycle.request_rc a =? 0)); reflexivity.
Qed.

Lemma state_ok_fresh : state_ok (Lifecycle.mem Lifecycle.fresh).
Proof. exact state_ok_init. Qed.

(** X12. [isov_init] returns 0 exactly when [gpio_request_array] returned
    0, [gpio_to_irq] a number that is not negative and [request_irq] 0; in
    every other case it returns [-ENODEV].  What [misc_register] and
    [ioremap] return is not looked at: the module reports success also when
    the device was not registered or the timer not mapped, with [timer]
    left at whatever [ioremap] gave. *)
Theorem X12_init_result a k :
  state_ok (Lifecycle.mem k) ->
  let r := Lifecycle.isov_init a k in
  exists rc, snd r = Done rc /\ (rc = 0 \/ rc = - ENODEV) /\
    (rc = 0 <-> Lifecycle.gpio_rc a = 0 /\ 0 <= Lifecycle.irq_rc a /\
                Lifecycle.request_rc a = 0) /\
    (rc = 0 -> Lifecycle.timer (fst r) = Lifecycle.map_ptr a /\
               vcf_irqs (Lifecycle.mem (fst r)) !! 0%nat = Some (Lifecycle.irq_rc a)).
Proof.
  intros Hok r. destruct (state_ok_table _ Hok) as (q0 & q1 & q2 & q3 & q4 & Hq).
  unfold r. rewrite (isov_init_run a k q0 q1 q2 q3 q4 Hq). cbv zeta.
  destruct (Z.eqb_spec (Lifecycle.gpio_rc a) 0) as [Hg|Hg]; cbn [negb].
  2:{ exists (- ENODEV). unfold ENODEV. repeat split; auto; try lia; intros; lia. }
  destruct (Z.ltb_spec (Lifecycle.irq_rc a) 0) as [Hi|Hi].
  { exists (- ENODEV). unfold ENODEV. repeat split; auto; try lia; intros; lia. }
  destruct (Z.eqb_spec (Lifecycle.request_rc a) 0) as [Hr|Hr]; cbn [negb].
  - exists 0. repeat split; auto.
  - exists (- ENODEV). unfold ENODEV. repeat split; auto; try lia; intros; lia.
Qed.

Lemma X12_init_result_witness :
  state_ok (Lifecycle.mem Lifecycle.fresh) /\
  snd (Lifecycle.isov_init (Lifecycle.Answers (-16) 0 17 0 0) Lifecycle.fresh) = Done 0 /\
  Lifecycle.timer (fst (Lifecycle.isov_init (Lifecycle.Answers (-16) 0 17 0 0) Lifecycle.fresh))
  = 0.
Proof.
  split; [exact state_ok_fresh|].
  destruct (X12_init_result (Lifecycle.Answers (-16) 0 17 0 0) Lifecycle.fresh state_ok_fresh)
    as (rc & E & _ & [_ H0] & Ht).
  assert (rc = 0) as -> by (apply H0; cbn; lia).
  split; [exact E | apply Ht; reflexivity].
Defined.

(** X13. [isov_init] registers the device first and has no call of
    [misc_deregister] on any path: when it fails, the device it
    registered stays registered.  A failing run calls [gpio_free_array],
    also when it was [gpio_request_array] that failed; a run that succeeds
    releases nothing. *)
Theorem X13_init_unwinding a k :
  state_ok (Lifecycle.mem k) ->
  let r := Lifecycle.isov_init a k in
  exists rest,
    Lifecycle.log (fst r) = Lifecycle.log k ++ Lifecycle.misc_register (Lifecycle.misc_rc a) :: rest /\
    (Lifecycle.misc_deregister ∉ rest) /\
    (snd r = Done 0 -> List.filter Lifecycle.is_release rest = []) /\
    (snd r <> Done 0 -> Lifecycle.gpio_free_array ∈ rest).
Proof.
  intros Hok r. destruct (state_ok_table _ Hok) as (q0 & q1 & q2 & q3 & q4 & Hq).
  unfold r. rewrite (isov_init_run a k q0 q1 q2 q3 q4 Hq). cbv zeta.
  assert (Hfail : Done (- ENODEV) <> @Done Z 0) by discriminate.
  destruct (negb (Lifecycle.gpio_rc a =? 0)); [|destruct (Lifecycle.irq_rc a <? 0);
    [|destruct (negb (Lifecycle.request_rc a =? 0))]];
    cbn [fst snd Lifecycle.log app map]; eexists; (split; [reflexivity|]);
    (split; [intros H; repeat (apply elem_of_cons in H as [H|H]; [discriminate|]);
             inversion H|]).
  - split; [intros E; contradiction|]. intros _. right. left.
  - split; [intros E; contradiction|]. intros _. right. right. left.
  - split; [intros E; contradiction|]. intros _.
    repeat (first [left; reflexivity | right]).
  - split; [intros _; reflexivity|]. intros Hne. now contradiction Hne.
Qed.

Lemma X13_init_unwinding_witness :
  state_ok (Lifecycle.mem Lifecycle.fresh) /\
  let r := Lifecycle.isov_init (Lifecycle.Answers 0 0 (-22) 0 0) Lifecycle.fresh in
  snd r = Done (- ENODEV) /\
  Lifecycle.misc_register 0 ∈ Lifecycle.log (fst r) /\
  (Lifecycle.misc_deregister ∉ Lifecycle.log (fst r)).
Proof.
  split; [exact state_ok_fresh|]. intros r.
  destruct (X13_init_unwinding (Lifecycle.Answers 0 0 (-22) 0 0) Lifecycle.fresh state_ok_fresh)
    as (rest & Hlog & Hno & _ & _).
  fold r in Hlog. rewrite Hlog. cbn [Lifecycle.fresh Lifecycle.log app Lifecycle.misc_rc].
  split; [reflexivity|]. split; [left|].
  intros H. apply elem_of_cons in H as [H|H]; [discriminate | contradiction].
Defined.

(** X14. When [request_irq] fails, [isov_init] calls [free_irq] for every
    entry of [vcf_irqs]: for the interrupt whose request has just failed
    and for the four entries that were never requested.  It then calls
    [iounmap] with what [ioremap] returned, without testing it, and leaves
    that pointer in [timer]. *)
Theorem X14_failed_request_frees_all a k :
  state_ok (Lifecycle.mem k) ->
  Lifecycle.gpio_rc a = 0 -> 0 <= Lifecycle.irq_rc a -> Lifecycle.request_rc a <> 0 ->
  let k' := fst (Lifecycle.isov_init a k) in
  List.filter Lifecycle.is_free_irq (Lifecycle.added k k')
  = map Lifecycle.free_irq (vcf_irqs (Lifecycle.mem k')) /\
  length (vcf_irqs (Lifecycle.mem k')) = 5%nat /\
  List.filter Lifecycle.is_request_irq (Lifecycle.added k k')
  = [Lifecycle.request_irq (Lifecycle.irq_rc a) "isov#vcf1" (Lifecycle.request_rc a)] /\
  Lifecycle.iounmap (Lifecycle.map_ptr a) ∈ Lifecycle.added k k' /\
  Lifecycle.timer k' = Lifecycle.map_ptr a.
Proof.
  intros Hok Hg Hi Hr k'. destruct (state_ok_table _ Hok) as (q0 & q1 & q2 & q3 & q4 & Hq).
  unfold k'. rewrite (isov_init_run a k q0 q1 q2 q3 q4 Hq). cbv zeta.
  rewrite Hg. cbn [Z.eqb negb].
  destruct (Z.ltb_spec (Lifecycle.irq_rc a) 0); [lia|].
  destruct (Z.eqb_spec (Lifecycle.request_rc a) 0); [contradiction|]. cbn [negb fst].
  unfold Lifecycle.added. cbn [Lifecycle.log Lifecycle.mem Lifecycle.timer].
  rewrite drop_app_length. cbn.
  repeat split. repeat (first [left; reflexivity | right]).
Qed.

Lemma X14_failed_request_frees_all_witness :
  state_ok (Lifecycle.mem Lifecycle.fresh) /\
  let a := Lifecycle.Answers 0 0 17 4096 (-16) in
  let k' := fst (Lifecycle.isov_init a Lifecycle.fresh) in
  List.filter Lifecycle.is_free_irq (Lifecycle.log k')
  = map Lifecycle.free_irq [17; -1; -1; -1; -1].
Proof.
  split; [exact state_ok_fresh|]. intros a k'.
  destruct (X14_failed_request_frees_all a Lifecycle.fresh state_ok_fresh) as (H & _);
    [reflexivity | cbn; lia | cbn; lia |].
  exact H.
Defined.

(** X15. Unloading after a successful load: [isov_init] has requested one
    interrupt, and [isov_exit] calls [free_irq] five times, once for that
    interrupt and four times for -1.  It unmaps the timer only if the
    pointer is not 0, ends with [misc_deregister], and changes neither the
    module's data nor [timer], which keeps pointing at the unmapped page. *)
Theorem X15_exit_after_init a k :
  reach_inv (Lifecycle.mem k) ->
  Lifecycle.gpio_rc a = 0 -> 0 <= Lifecycle.irq_rc a -> Lifecycle.request_rc a = 0 ->
  let k1 := fst (Lifecycle.isov_init a k) in
  let x := Lifecycle.isov_exit k1 in
  snd x = Done tt /\
  Lifecycle.mem (fst x) = Lifecycle.mem k1 /\ Lifecycle.timer (fst x) = Lifecycle.map_ptr a /\
  List.filter Lifecycle.is_request_irq (Lifecycle.added k k1)
  = [Lifecycle.request_irq (Lifecycle.irq_rc a) "isov#vcf1" 0] /\
  List.filter Lifecycle.is_free_irq (Lifecycle.added k1 (fst x))
  = Lifecycle.free_irq (Lifecycle.irq_rc a) :: replicate 4 (Lifecycle.free_irq (-1)) /\
  (Lifecycle.iounmap (Lifecycle.map_ptr a) ∈ Lifecycle.added k1 (fst x)
   <-> Lifecycle.map_ptr a <> 0) /\
  last (Lifecycle.added k1 (fst x)) = Some Lifecycle.misc_deregister.
Proof.
  intros Hinv Hg Hi Hr k1 x. destruct (ri_irqs _ Hinv) as [q Hq].
  assert (Hk1 : k1 = Lifecycle.Module_
            (set_vcf_irqs [Lifecycle.irq_rc a; -1; -1; -1; -1] (Lifecycle.mem k))
            (Lifecycle.map_ptr a)
            (Lifecycle.log k ++
               [Lifecycle.misc_register (Lifecycle.misc_rc a); Lifecycle.gpio_request_array 0;
                Lifecycle.gpio_to_irq 2 (Lifecycle.irq_rc a);
                Lifecycle.ioremap 0x3F003004 8 (Lifecycle.map_ptr a);
                Lifecycle.request_irq (Lifecycle.irq_rc a) "isov#vcf1" 0;
                Lifecycle.printk "ISOV: GPIO settings ok."])).
  { unfold k1. rewrite (isov_init_run a k q (-1) (-1) (-1) (-1) Hq). cbv zeta.
    rewrite Hg, Hr. cbn [Z.eqb negb].
    destruct (Z.ltb_spec (Lifecycle.irq_rc a) 0); [lia|]. reflexivity. }
  clearbody k1. subst k1. unfold x.
  rewrite (isov_exit_run _ (Lifecycle.irq_rc a) (-1) (-1) (-1) (-1)) by reflexivity.
  cbn [fst snd Lifecycle.mem Lifecycle.timer Lifecycle.log].
  unfold Lifecycle.added. cbn [Lifecycle.log]. rewrite !drop_app_length.
  split; [reflexivity|]. split; [reflexivity|]. split; [reflexivity|].
  split; [reflexivity|].
  destruct (Z.eqb_spec (Lifecycle.map_ptr a) 0) as [E|E]; cbn [negb].
  - split; [reflexivity|]. split; [|reflexivity]. split; [|contradiction].
    intros H. cbn in H.
    repeat (apply elem_of_cons in H as [H|H]; [discriminate|]). inversion H.
  - split; [reflexivity|]. split; [|reflexivity]. split; [intros _; exact E|].
    intros _. cbn. right. left.
Qed.

Lemma X15_exit_after_init_witness :
  reach_inv (Lifecycle.mem Lifecycle.fresh) /\
  let a := Lifecycle.Answers 0 0 17 4096 0 in
  let k1 := fst (Lifecycle.isov_init a Lifecycle.fresh) in
  List.filter Lifecycle.is_free_irq (Lifecycle.added k1 (fst (Lifecycle.isov_exit k1)))
  = map Lifecycle.free_irq [17; -1; -1; -1; -1].
Proof.
  split; [exact reach_inv_init|]. intros a k1.
  destruct (X15_exit_after_init a Lifecycle.fresh reach_inv_init) as (_ & _ & _ & _ & H & _);
    [reflexivity | cbn; lia | reflexivity |].
  exact H.
Defined.
